(** * Visual cryptography share encoder (2x2 subpixel expansion)

    A shallow embedding of [utils/imageProcessing.ts]: the pattern
    generator [generatePatterns], the block writer [writeBlock2x2] and the
    orchestrating loop [generateVisualShares], followed by the properties
    the design document states about them.

    Modelling conventions.
    - [Math.random()] is an oracle [rnd : nat -> Q]; the state threaded
      through the code is the number of draws made so far.  Its contract
      (every draw lies in [0,1)) is the predicate [unit_draws].
    - JavaScript numbers are exact rationals; [None] stands for
      [undefined]/[NaN], for which every [<] comparison is false.  Rounding
      of the luminance and of the threshold is not modelled: the properties
      below are stated on the resulting dark/light classification.
    - [shareCount] is a natural number (the slider of the application
      delivers integers); negative, fractional and unallocatably large
      counts are outside the model.
    - An assignment through [undefined] ([patterns[s][k] = 1] when
      [patterns[s]] does not exist) throws a [TypeError].
    - A [Uint8ClampedArray] is a [list Z] of fixed length: a store past the
      end is ignored and a stored number is clamped to 0..255.
    - A property that needs the shuffle to return a permutation assumes
      [unit_draws]; the others hold for any oracle and are stated without
      it. *)

From Stdlib Require Import QArith Qround Lqa.
From stdpp Require Import base tactics option list numbers sets gmap strings.

Close Scope Q_scope.
Open Scope nat_scope.

(** ** Numbers *)

(** A JavaScript number; [None] is [undefined] or [NaN]. *)
Definition jsnum : Type := option Q.

Definition Qltb (x y : Q) : bool := negb (Qle_bool y x).

(** [v < t] on numbers: false as soon as the left operand is not a number. *)
Definition js_lt (v : jsnum) (t : Q) : bool :=
  match v with
  | Some q => Qltb q t
  | None => false
  end.

(** Reading a byte of [ImageData.data] as a number. *)
Definition byte_num (b : option Z) : jsnum := inject_Z <$> b.

(** Conversion performed by a store into a [Uint8ClampedArray];
    [None] ([NaN]) is stored as 0. *)
Definition to_uint8_clamped (v : option Z) : Z :=
  match v with
  | Some z => Z.max 0 (Z.min 255 z)
  | None => 0%Z
  end.

(** ** Exceptions and the random source *)

Inductive JsError : Set := TypeError.

Inductive outcome (A : Type) : Type :=
| Ok (a : A)
| Throw (e : JsError).
Arguments Ok {A} a.
Arguments Throw {A} e.

(** A computation reads the number of draws made so far and either returns
    a value with the new count or throws. *)
Definition M (A : Type) : Type := nat -> outcome (A * nat).

Definition ret {A} (a : A) : M A := fun k => Ok (a, k).

Definition bind {A B} (f : A -> M B) (c : M A) : M B :=
  fun k =>
    match c k with
    | Ok (a, k') => f a k'
    | Throw e => Throw e
    end.

Definition throw {A} (e : JsError) : M A := fun _ => Throw e.

#[global] Instance M_ret : MRet M := @ret.
#[global] Instance M_bind : MBind M := @bind.

(** [for (const x of l) acc = body(acc, x)] *)
Fixpoint for_each {A B} (body : A -> B -> M A) (l : list B) (acc : A) : M A :=
  match l with
  | [] => mret acc
  | x :: l' => acc' ← body acc x; for_each body l' acc'
  end.

(** Every draw of [Math.random()] lies in [0,1). *)
Definition unit_draws (rnd : nat -> Q) : Prop :=
  forall k, (0 <= rnd k)%Q /\ (rnd k < 1)%Q.

(** ** Ink patterns *)

(** One share's pattern for one channel: four ink bits (1 = ink). *)
Abbreviation pattern := (list Z).

Definition clear_block : pattern := [0; 0; 0; 0]%Z.

(** [patterns[s][idx] = 1]; throws when [patterns[s]] is [undefined]. *)
Definition set_ink (patterns : list pattern) (s idx : nat) : M (list pattern) :=
  match patterns !! s with
  | Some row => mret (<[s := <[idx := 1%Z]> row]> patterns)
  | None => throw TypeError
  end.

(** [[p[i], p[j]] = [p[j], p[i]]].  Both indices are inside the array
    whenever the draw behind [j] lies in [0,1) (lemma [fy_index_bound]), so
    the default of the total lookup is never read. *)
Definition swap (p : list nat) (i j : nat) : list nat :=
  let pi := p !!! i in
  let pj := p !!! j in
  <[j := pi]> (<[i := pj]> p).

(** [Math.floor(u * (i + 1))] *)
Definition fy_index (u : Q) (i : nat) : nat :=
  Z.to_nat (Qfloor (u * inject_Z (Z.of_nat (i + 1)))).

Section PatternGenerator.
Variable rnd : nat -> Q.

Definition Math_random : M Q := fun k => Ok (rnd k, S k).

(** Body of the Fisher-Yates loop: [j = floor(random() * (i + 1))]. *)
Definition shuffle_step (p : list nat) (i : nat) : M (list nat) :=
  u ← Math_random;
  let j := fy_index u i in
  mret (swap p i j).

(** [for (let i = 3; i > 0; i--)] over [p = [0, 1, 2, 3]]. *)
Definition shuffle : M (list nat) :=
  for_each shuffle_step [3; 2; 1] [0; 1; 2; 3].

(** [128 + (Math.random() * 60 - 30)] *)
Definition threshold_of (u : Q) : Q := (128 + (u * 60 - 30))%Q.

(** Two consecutive assignments [patterns[s][a] = 1; patterns[s][b] = 1]. *)
Definition ink_pair (s a b : nat) (patterns : list pattern) : M (list pattern) :=
  patterns ← set_ink patterns s a;
  set_ink patterns s b.

(** Lines 121-176: the covering design applied to the shuffled slots. *)
Definition assign_ink (isDark : bool) (p : list nat) (n : nat) : M (list pattern) :=
  let patterns := replicate n clear_block in
  if negb isDark then
    let idx1 := p !!! 0 in
    let idx2 := p !!! 1 in
    for_each (fun patterns s => ink_pair s idx1 idx2 patterns) (seq 0 n) patterns
  else if n =? 2 then
    patterns ← ink_pair 0 (p !!! 0) (p !!! 1) patterns;
    ink_pair 1 (p !!! 2) (p !!! 3) patterns
  else if n =? 3 then
    patterns ← ink_pair 0 (p !!! 0) (p !!! 1) patterns;
    patterns ← ink_pair 1 (p !!! 1) (p !!! 2) patterns;
    ink_pair 2 (p !!! 2) (p !!! 3) patterns
  else
    patterns ← ink_pair 0 (p !!! 0) (p !!! 1) patterns;
    patterns ← ink_pair 1 (p !!! 1) (p !!! 2) patterns;
    patterns ← ink_pair 2 (p !!! 2) (p !!! 3) patterns;
    ink_pair 3 (p !!! 3) (p !!! 0) patterns.

Definition generatePatterns (val : jsnum) (n : nat) : M (list pattern) :=
  u ← Math_random;
  let isDark := js_lt val (threshold_of u) in
  p ← shuffle;
  assign_ink isDark p n.

(** The classification and the permutation that a call started after
    [k] draws computes. *)
Definition classified_dark (val : jsnum) (k : nat) : bool :=
  js_lt val (threshold_of (rnd k)).

Definition permutation_at (k : nat) : list nat :=
  swap (swap (swap [0; 1; 2; 3] 3 (fy_index (rnd (S k)) 3))
             2 (fy_index (rnd (S (S k))) 2))
       1 (fy_index (rnd (S (S (S k)))) 1).

End PatternGenerator.

(** ** Block writer *)

Record ImageData : Type := mkImageData {
  width : nat;
  height : nat;
  data : list Z
}.

(** The four stores [data[targetIdx] = r; ...; data[targetIdx + 3] = a]. *)
Definition write_px (data : list Z) (targetIdx : nat) (r g b a : Z) : list Z :=
  <[targetIdx + 3 := a]>
    (<[targetIdx + 2 := b]> (<[targetIdx + 1 := g]> (<[targetIdx := r]> data))).

(** [{dx, dy, i}]: top-left, top-right, bottom-left, bottom-right. *)
Definition offsets : list (nat * nat * nat) :=
  [(0, 0, 0); (1, 0, 1); (0, 1, 2); (1, 1, 3)].

(** The byte stored for [(1 - p[i]) * 255]. *)
Definition ink_value (p : pattern) (i : nat) : Z :=
  to_uint8_clamped ((fun bit => ((1 - bit) * 255)%Z) <$> p !! i).

Definition targetIdx_of (x y width dx dy : nat) : nat :=
  ((y * 2 + dy) * width + (x * 2 + dx)) * 4.

Definition writeBlock2x2 (data : list Z) (x y width : nat)
    (pR pG pB : pattern) (transparent : bool) : list Z :=
  foldl (fun data '(dx, dy, i) =>
           let targetIdx := targetIdx_of x y width dx dy in
           if transparent then write_px data targetIdx 0 0 0 0
           else write_px data targetIdx
                  (ink_value pR i) (ink_value pG i) (ink_value pB i) 255)
        data offsets.

(** ** Channel orchestrator *)

(** [0.299 * r + 0.587 * g + 0.114 * b] *)
Definition luminance (r g b : jsnum) : jsnum :=
  match r, g, b with
  | Some r, Some g, Some b =>
      Some ((299 # 1000) * r + (587 # 1000) * g + (114 # 1000) * b)%Q
  | _, _, _ => None
  end.

Section Encoder.
Variable rnd : nat -> Q.

(** One turn of [for (let s = 0; s < shareCount; s++)]: the block of
    share [s] is rewritten in place.  The three pattern arrays and
    [sharesData] all have [shareCount] entries (lemma
    [generatePatterns_total]), so the [TypeError] of this model for a
    missing entry is never reached. *)
Definition write_share (x y outWidth : nat) (patR patG patB : list pattern)
    (isTransparent : bool) (sharesData : list (list Z)) (s : nat)
  : M (list (list Z)) :=
  match sharesData !! s, patR !! s, patG !! s, patB !! s with
  | Some d, Some pR, Some pG, Some pB =>
      mret (<[s := writeBlock2x2 d x y outWidth pR pG pB isTransparent]> sharesData)
  | _, _, _, _ => throw TypeError
  end.

(** Body of the two pixel loops. *)
Definition process_pixel (sourceData : ImageData) (shareCount : nat)
    (isColor : bool) (outWidth y : nat) (sharesData : list (list Z)) (x : nat)
  : M (list (list Z)) :=
  let i := (y * width sourceData + x) * 4 in
  let r := byte_num (data sourceData !! i) in
  let g := byte_num (data sourceData !! (i + 1)) in
  let b := byte_num (data sourceData !! (i + 2)) in
  let a := byte_num (data sourceData !! (i + 3)) in
  let isTransparent := js_lt a 50 in
  let lum := luminance r g b in
  let channels := if isColor then (r, g, b) else (lum, lum, lum) in
  patR ← generatePatterns rnd channels.1.1 shareCount;
  patG ← generatePatterns rnd channels.1.2 shareCount;
  patB ← generatePatterns rnd channels.2 shareCount;
  for_each (write_share x y outWidth patR patG patB isTransparent)
           (seq 0 shareCount) sharesData.

Definition generateVisualShares (sourceData : ImageData) (shareCount : nat)
    (isColor : bool) : M (list ImageData) :=
  let outWidth := width sourceData * 2 in
  let outHeight := height sourceData * 2 in
  let sharesData :=
    replicate shareCount (replicate (outWidth * outHeight * 4) 0%Z) in
  sharesData ←
    for_each (fun sharesData y =>
                for_each (process_pixel sourceData shareCount isColor outWidth y)
                         (seq 0 (width sourceData)) sharesData)
             (seq 0 (height sourceData)) sharesData;
  mret ((fun data => mkImageData outWidth outHeight data) <$> sharesData).

End Encoder.

(** ** Specification-side vocabulary *)

(** Number of ink bits of a pattern. *)
Definition ink_count (pat : pattern) : nat :=
  length (filter (fun bit => bit = 1%Z) pat).

(** A well-formed pattern: four entries, each 0 or 1. *)
Definition bits4 (pat : pattern) : Prop :=
  length pat = 4 /\ Forall (fun bit => bit = 0%Z \/ bit = 1%Z) pat.

(** Slots of a pattern that carry ink. *)
Definition ink_slots (pat : pattern) : list nat :=
  filter (fun slot => pat !! slot = Some 1%Z) (seq 0 (length pat)).

Definition ink_positions (pat : pattern) : gset nat := list_to_set (ink_slots pat).

(** Slots inked by at least one share: what stacking the shares shows. *)
Definition stacked (pats : list pattern) : gset nat := ⋃ (ink_positions <$> pats).

(** The pattern the design document writes [{a, b}]: ink at slots [a] and
    [b], clear elsewhere. *)
Definition ink_set (a b : nat) : pattern :=
  (fun slot => if decide (slot = a \/ slot = b) then 1%Z else 0%Z) <$> seq 0 4.

(** The covering design of the design document over the ring
    [p0, p1, p2, p3], for the three supported share counts. *)
Definition covering_design (n p0 p1 p2 p3 : nat) : list pattern :=
  match n with
  | 2 => [ink_set p0 p1; ink_set p2 p3]
  | 3 => [ink_set p0 p1; ink_set p1 p2; ink_set p2 p3]
  | 4 => [ink_set p0 p1; ink_set p1 p2; ink_set p2 p3; ink_set p3 p0]
  | _ => []
  end.

(** The transparency flag the encoder computes for the source pixel
    [(x, y)] (lines 66-73). *)
Definition pixel_transparent (sourceData : ImageData) (x y : nat) : bool :=
  js_lt (byte_num (data sourceData !! ((y * width sourceData + x) * 4 + 3))) 50.

(** The RGBA pixel number [q] of a buffer (bytes [4q .. 4q+3]). *)
Definition pixel_at (data : list Z) (q : nat) : option (Z * Z * Z * Z) :=
  match data !! (q * 4), data !! (q * 4 + 1), data !! (q * 4 + 2), data !! (q * 4 + 3) with
  | Some r, Some g, Some b, Some a => Some (r, g, b, a)
  | _, _, _, _ => None
  end.

(** Number of the output pixel in column [X], row [Y] of a buffer that is
    [W] pixels wide. *)
Definition out_pixel (W X Y : nat) : nat := Y * W + X.

(** What the block writer stores in slot [i] of a block. *)
Definition block_pixel (pR pG pB : pattern) (transparent : bool) (i : nat)
  : Z * Z * Z * Z :=
  if transparent then (0, 0, 0, 0)%Z
  else (ink_value pR i, ink_value pG i, ink_value pB i, 255%Z).

(** The colour byte the design document assigns to an ink bit:
    [(1 - bit) x 255]. *)
Definition ink_colour (bit : Z) : Z := ((1 - bit) * 255)%Z.

(** A share pixel is either fully transparent, or opaque with every colour
    component 0 or 255. *)
Definition two_level (px : Z * Z * Z * Z) : Prop :=
  let '(r, g, b, a) := px in
  (r = 0 /\ g = 0 /\ b = 0 /\ a = 0)%Z
  \/ (a = 255 /\ (r = 0 \/ r = 255) /\ (g = 0 \/ g = 255) /\ (b = 0 \/ b = 255))%Z.

(** The 24 orderings of the four slots. *)
Definition orderings : list (list nat) :=
  [ [0;1;2;3]; [0;1;3;2]; [0;2;1;3]; [0;2;3;1]; [0;3;1;2]; [0;3;2;1];
    [1;0;2;3]; [1;0;3;2]; [1;2;0;3]; [1;2;3;0]; [1;3;0;2]; [1;3;2;0];
    [2;0;1;3]; [2;0;3;1]; [2;1;0;3]; [2;1;3;0]; [2;3;0;1]; [2;3;1;0];
    [3;0;1;2]; [3;0;2;1]; [3;1;0;2]; [3;1;2;0]; [3;2;0;1]; [3;2;1;0] ].

Definition rnd_demo (k : nat) : Q := (Z.of_nat ((k * 7 + 3) mod 10) # 10)%Q.

(** A 2x1 image: an opaque black pixel and a nearly transparent white one. *)
Definition img_demo : ImageData :=
  mkImageData 2 1 [0; 0; 0; 255; 255; 255; 255; 10]%Z.

(** An oracle whose first three draws make the Fisher-Yates loop pick the
    indices [j3], [j2] and [j1]. *)
Definition rnd_of (j3 j2 j1 : nat) (k : nat) : Q :=
  match k with
  | 0 => (Z.of_nat j3 # 4)%Q
  | 1 => (Z.of_nat j2 # 3)%Q
  | 2 => (Z.of_nat j1 # 2)%Q
  | _ => 0%Q
  end.

(** The bitwise complement of a pattern. *)
Definition complement (pat : pattern) : pattern := (fun bit => (1 - bit)%Z) <$> pat.

(** Number of shares that put ink on [slot]. *)
Definition cover_count (pats : list pattern) (slot : nat) : nat :=
  length (filter (fun pat => pat !! slot = Some 1%Z) pats).

(** ** The application around the encoder ([App.tsx], [types.ts]) *)

(** [ProcessedShare]; the fields are prefixed because [data] is already the
    field of [ImageData]. *)
Record ProcessedShare : Type := mkProcessedShare {
  share_id : nat;
  share_data : ImageData;
  share_color : string
}.

Inductive ProcessingStatus : Set := IDLE | PROCESSING | COMPLETE | ERROR.

(** The border colours [['#ef4444', '#3b82f6', '#22c55e', '#eab308']]. *)
Definition palette : list string :=
  ["#ef4444"; "#3b82f6"; "#22c55e"; "#eab308"]%string.

(** [rawShares.map((data, idx) => ({ id: idx, data, color: palette[idx % 4] }))];
    [idx % 4] is always an index of the palette. *)
Definition mapShares (rawShares : list ImageData) : list ProcessedShare :=
  imap (fun idx data => mkProcessedShare idx data (palette !!! (idx mod 4))) rawShares.

(** The part of the component state that [processImage] writes. *)
Record AppState : Type := mkAppState {
  status : ProcessingStatus;
  generatedShares : list ProcessedShare;
  alignTrigger : nat
}.

(** The values the share-count slider can deliver: the state starts at 2
    and the range input has [min="2"], [max="4"]. *)
Inductive SliderValue : Set := Shares2 | Shares3 | Shares4.

Definition slider_count (v : SliderValue) : nat :=
  match v with
  | Shares2 => 2
  | Shares3 => 3
  | Shares4 => 4
  end.

(** The [try]/[catch] of the [img.onload] handler of [processImage]
    (lines 44-68).  [canvas] is the outcome of the first statements of the
    [try] block, which belong to the browser ([resizeImage], the
    [getContext] test and [getImageData]): [Some imageData] when they
    deliver the pixels, [None] when one of them throws.  Then the encoder
    runs, after [k] draws, with the share count of the slider; on success
    the shares are mapped and stored, the status becomes [COMPLETE] and the
    alignment trigger is reset; any exception only sets the status to
    [ERROR].  (The state on entry has status [PROCESSING].) *)
Definition processImage_onload (rnd : nat -> Q) (st : AppState)
    (canvas : option ImageData) (shareCount : SliderValue) (isColor : bool)
    (k : nat) : AppState :=
  match canvas with
  | None => mkAppState ERROR (generatedShares st) (alignTrigger st)
  | Some imageData =>
      match generateVisualShares rnd imageData (slider_count shareCount) isColor k with
      | Ok (rawShares, _) =>
          mkAppState COMPLETE (mapShares rawShares) 0
      | Throw _ =>
          mkAppState ERROR (generatedShares st) (alignTrigger st)
      end
  end.

(** ** The monad *)

Lemma bind_Ok {A B} (c : M A) (f : A -> M B) k a k' :
  c k = Ok (a, k') -> (x ← c; f x) k = f a k'.
Proof. intros H. unfold mbind, M_bind, bind. by rewrite H. Qed.

Lemma bind_Throw {A B} (c : M A) (f : A -> M B) k e :
  c k = Throw e -> (x ← c; f x) k = Throw e.
Proof. intros H. unfold mbind, M_bind, bind. by rewrite H. Qed.

(** Loop rule for [for (let i = a; i < a + m; i++)]: the invariant [P i]
    holds before turn [i]; every turn makes [d] draws and does not throw. *)
Lemma for_each_seq_invariant {A} (P : nat -> A -> Prop) (body : A -> nat -> M A) d m :
  forall a acc k,
  (forall i acc k, a <= i < a + m -> P i acc ->
     exists acc', body acc i k = Ok (acc', k + d) /\ P (S i) acc') ->
  P a acc ->
  exists acc', for_each body (seq a m) acc k = Ok (acc', k + m * d) /\ P (a + m) acc'.
Proof.
  induction m as [|m IH]; intros a acc k Hbody HP.
  - exists acc. rewrite (Nat.add_0_r a). split; [|done].
    simpl. unfold mret, M_ret, ret. do 2 f_equal. lia.
  - destruct (Hbody a acc k ltac:(lia) HP) as (acc1 & E1 & HP1).
    destruct (IH (S a) acc1 (k + d)) as (acc2 & E2 & HP2); [|done|].
    { intros i acc' k' Hi. apply Hbody. lia. }
    exists acc2. split.
    + simpl. rewrite (bind_Ok _ _ _ _ _ E1), E2. do 2 f_equal. lia.
    + by replace (a + S m) with (S a + m) by lia.
Qed.

(** ** The shuffle *)

Lemma fy_index_bound u i :
  (0 <= u)%Q -> (u < 1)%Q -> fy_index u i <= i.
Proof.
  intros H0 H1. unfold fy_index.
  set (m := Z.of_nat (i + 1)).
  assert (Hm : (0 < inject_Z m)%Q).
  { change 0%Q with (inject_Z 0). rewrite <- Zlt_Qlt. lia. }
  assert (Hlt : (Qfloor (u * inject_Z m) < m)%Z).
  { rewrite Zlt_Qlt. eapply Qle_lt_trans; [apply Qfloor_le|].
    rewrite <- (Qmult_1_l (inject_Z m)) at 2.
    by apply Qmult_lt_compat_r. }
  lia.
Qed.

(** ** Single patterns *)

Lemma ink_pair_pattern (a b : nat) :
  a < 4 -> b < 4 -> <[b := 1%Z]> (<[a := 1%Z]> clear_block) = ink_set a b.
Proof.
  intros Ha Hb.
  destruct a as [|[|[|[|a]]]]; [| | | |lia];
    (destruct b as [|[|[|[|b]]]]; [| | | |lia]); reflexivity.
Qed.

Lemma ink_set_lookup (a b slot : nat) :
  slot < 4 ->
  ink_set a b !! slot = Some (if decide (slot = a \/ slot = b) then 1%Z else 0%Z).
Proof.
  intros Hs. unfold ink_set. rewrite list_lookup_fmap, lookup_seq_lt; done.
Qed.

Lemma ink_set_count (a b : nat) :
  a < 4 -> b < 4 -> a <> b -> ink_count (ink_set a b) = 2.
Proof.
  intros Ha Hb Hab.
  destruct a as [|[|[|[|a]]]]; [| | | |lia];
    (destruct b as [|[|[|[|b]]]]; [| | | |lia]); done.
Qed.

Lemma ink_set_bits4 (a b : nat) : bits4 (ink_set a b).
Proof.
  split; [done|]. unfold ink_set. apply Forall_fmap, Forall_forall.
  intros slot _. simpl. case_decide; auto.
Qed.

Lemma bits4_insert (pat : pattern) (idx : nat) : bits4 pat -> bits4 (<[idx := 1%Z]> pat).
Proof.
  intros [Hlen Hbits]. split; [by rewrite length_insert|].
  apply Forall_insert; auto.
Qed.

Lemma bits4_clear : bits4 clear_block.
Proof. split; [done|]. repeat constructor; auto. Qed.

(** ** Assignments into the pattern array *)

Lemma set_ink_Ok (patterns : list pattern) s idx k row :
  patterns !! s = Some row ->
  set_ink patterns s idx k = Ok (<[s := <[idx := 1%Z]> row]> patterns, k).
Proof. intros H. unfold set_ink. by rewrite H. Qed.

Lemma set_ink_Throw (patterns : list pattern) s idx k :
  length patterns <= s -> set_ink patterns s idx k = Throw TypeError.
Proof. intros H. unfold set_ink. by rewrite (lookup_ge_None_2 _ _ H). Qed.

Lemma ink_pair_Ok (patterns : list pattern) s a b k row :
  patterns !! s = Some row ->
  ink_pair s a b patterns k
  = Ok (<[s := <[b := 1%Z]> (<[a := 1%Z]> row)]> patterns, k).
Proof.
  intros H. unfold ink_pair.
  rewrite (bind_Ok _ _ _ _ _ (set_ink_Ok _ _ _ _ _ H)).
  erewrite set_ink_Ok; [|apply list_lookup_insert_eq; by eapply lookup_lt_Some].
  by rewrite list_insert_insert_eq.
Qed.

Lemma ink_pair_Throw (patterns : list pattern) s a b k :
  length patterns <= s -> ink_pair s a b patterns k = Throw TypeError.
Proof.
  intros H. unfold ink_pair. by rewrite (bind_Throw _ _ _ _ (set_ink_Throw _ _ _ _ H)).
Qed.

(** The light loop, from any point of its run: shares below [a] are done,
    the [m] shares from [a] on are still clear. *)
Lemma light_loop (idx1 idx2 a m k : nat) (done_ : pattern) :
  done_ = <[idx2 := 1%Z]> (<[idx1 := 1%Z]> clear_block) ->
  for_each (fun patterns s => ink_pair s idx1 idx2 patterns) (seq a m)
           (replicate a done_ ++ replicate m clear_block) k
  = Ok (replicate (a + m) done_, k).
Proof.
  intros ->. revert a. induction m as [|m IH]; intros a.
  - simpl. rewrite app_nil_r, Nat.add_0_r. done.
  - simpl seq. simpl for_each.
    erewrite bind_Ok; last first.
    { apply ink_pair_Ok. apply list_lookup_middle. by rewrite length_replicate. }
    rewrite insert_app_r_alt by (rewrite length_replicate; lia).
    rewrite length_replicate, Nat.sub_diag. simpl.
    rewrite (cons_middle _ (replicate a _)), app_assoc.
    change [?x] with (replicate 1 x).
    rewrite <- replicate_add.
    replace (a + 1) with (S a) by lia.
    rewrite IH, Nat.add_succ_r. done.
Qed.

(** ** The covering design, branch by branch *)

Lemma assign_ink_light (p : list nat) n k :
  assign_ink false p n k
  = Ok (replicate n (<[p !!! 1 := 1%Z]> (<[p !!! 0 := 1%Z]> clear_block)), k).
Proof.
  unfold assign_ink. simpl negb. cbv iota.
  apply (light_loop (p !!! 0) (p !!! 1) 0 n k _ eq_refl).
Qed.

Lemma assign_ink_dark2 (p : list nat) k :
  assign_ink true p 2 k
  = Ok ([ <[p !!! 1 := 1%Z]> (<[p !!! 0 := 1%Z]> clear_block);
          <[p !!! 3 := 1%Z]> (<[p !!! 2 := 1%Z]> clear_block) ], k).
Proof. reflexivity. Qed.

Lemma assign_ink_dark3 (p : list nat) k :
  assign_ink true p 3 k
  = Ok ([ <[p !!! 1 := 1%Z]> (<[p !!! 0 := 1%Z]> clear_block);
          <[p !!! 2 := 1%Z]> (<[p !!! 1 := 1%Z]> clear_block);
          <[p !!! 3 := 1%Z]> (<[p !!! 2 := 1%Z]> clear_block) ], k).
Proof. reflexivity. Qed.

(** The last branch serves every count from 4 on: the shares past the
    fourth keep their initial clear block. *)
Lemma assign_ink_dark_ge4 (p : list nat) m k :
  assign_ink true p (4 + m) k
  = Ok ([ <[p !!! 1 := 1%Z]> (<[p !!! 0 := 1%Z]> clear_block);
          <[p !!! 2 := 1%Z]> (<[p !!! 1 := 1%Z]> clear_block);
          <[p !!! 3 := 1%Z]> (<[p !!! 2 := 1%Z]> clear_block);
          <[p !!! 0 := 1%Z]> (<[p !!! 3 := 1%Z]> clear_block) ]
        ++ replicate m clear_block, k).
Proof. reflexivity. Qed.

(** With fewer than two shares the last branch assigns through a missing
    entry of [patterns]. *)
Lemma assign_ink_dark_lt2 (p : list nat) n k :
  n < 2 -> assign_ink true p n k = Throw TypeError.
Proof.
  intros Hn. destruct n as [|[|n]]; [reflexivity | reflexivity | lia].
Qed.

Lemma orderings_spec (p : list nat) :
  p ∈ orderings ->
  exists a b c d, p = [a; b; c; d]
    /\ (a < 4 /\ b < 4 /\ c < 4 /\ d < 4)
    /\ (a <> b /\ a <> c /\ a <> d /\ b <> c /\ b <> d /\ c <> d).
Proof.
  unfold orderings. intros H.
  repeat (apply elem_of_cons in H as [->|H]);
    try (eexists _, _, _, _; split; [reflexivity | lia]).
  by apply elem_of_nil in H.
Qed.

Lemma orderings_Permutation (p : list nat) :
  p ∈ orderings -> p ≡ₚ [0; 1; 2; 3].
Proof.
  intros H. destruct (orderings_spec p H) as (a & b & c & d & -> & Hlt & Hne).
  apply submseteq_length_Permutation; [|done].
  apply NoDup_submseteq.
  - repeat (apply NoDup_cons; split; [set_unfold; lia|]). apply NoDup_nil_2.
  - intros x Hx.
    assert (x < 4) as Hx4 by (set_unfold in Hx; lia). clear Hx.
    set_unfold. lia.
Qed.

Section PatternFacts.
Variable rnd : nat -> Q.

Lemma shuffle_run k :
  shuffle rnd (S k) = Ok (permutation_at rnd k, S (S (S (S k)))).
Proof. reflexivity. Qed.

Lemma generatePatterns_run val n k :
  generatePatterns rnd val n k
  = assign_ink (classified_dark rnd val k) (permutation_at rnd k) n (k + 4).
Proof.
  replace (k + 4) with (S (S (S (S k)))) by lia.
  unfold generatePatterns.
  rewrite (bind_Ok _ _ k (rnd k) (S k) eq_refl).
  by rewrite (bind_Ok _ _ _ _ _ (shuffle_run k)).
Qed.

Hypothesis rnd_unit : unit_draws rnd.

(** Fisher-Yates returns one of the 24 orderings of the slots. *)
Lemma permutation_at_ordering k : permutation_at rnd k ∈ orderings.
Proof.
  unfold permutation_at.
  pose proof (fy_index_bound _ 3 (proj1 (rnd_unit (S k))) (proj2 (rnd_unit (S k)))) as H3.
  pose proof (fy_index_bound _ 2 (proj1 (rnd_unit (S (S k)))) (proj2 (rnd_unit (S (S k))))) as H2.
  pose proof (fy_index_bound _ 1 (proj1 (rnd_unit (S (S (S k))))) (proj2 (rnd_unit (S (S (S k)))))) as H1.
  destruct (fy_index (rnd (S k)) 3) as [|[|[|[|j3]]]]; [| | | |lia];
    (destruct (fy_index (rnd (S (S k))) 2) as [|[|[|j2]]]; [| | |lia]);
    (destruct (fy_index (rnd (S (S (S k)))) 1) as [|[|j1]]; [| |lia]);
    apply (bool_decide_unpack _); vm_compute; exact I.
Qed.

End PatternFacts.

(** ** The block writer *)

Lemma write_px_length data t r g b a :
  length (write_px data t r g b a) = length data.
Proof. unfold write_px. by rewrite !length_insert. Qed.

Lemma pixel_at_write_px data q0 q r g b a :
  q0 * 4 + 3 < length data ->
  pixel_at (write_px data (q0 * 4) r g b a) q
  = if decide (q = q0) then Some (r, g, b, a) else pixel_at data q.
Proof.
  intros Hlen. unfold pixel_at, write_px.
  case_decide as Hq.
  - subst q.
    rewrite list_lookup_insert_ne, list_lookup_insert_ne, list_lookup_insert_ne by lia.
    rewrite list_lookup_insert_eq by lia.
    rewrite list_lookup_insert_ne, list_lookup_insert_ne by lia.
    rewrite list_lookup_insert_eq by (rewrite length_insert; lia).
    rewrite list_lookup_insert_ne by lia.
    rewrite list_lookup_insert_eq by (rewrite !length_insert; lia).
    rewrite list_lookup_insert_eq by (rewrite !length_insert; lia).
    done.
  - by rewrite !list_lookup_insert_ne by lia.
Qed.

Lemma writeBlock2x2_length data x y W pR pG pB tr :
  length (writeBlock2x2 data x y W pR pG pB tr) = length data.
Proof.
  unfold writeBlock2x2. simpl. destruct tr; by rewrite !write_px_length.
Qed.

(** The block writer, pixel by pixel: the four pixels of the block get their
    slot's value (a later store wins), every other pixel is untouched. *)
Lemma pixel_at_writeBlock2x2 data x y W pR pG pB tr q :
  out_pixel W (x * 2 + 1) (y * 2 + 1) * 4 + 3 < length data ->
  pixel_at (writeBlock2x2 data x y W pR pG pB tr) q
  = if decide (q = out_pixel W (x * 2 + 1) (y * 2 + 1)) then Some (block_pixel pR pG pB tr 3)
    else if decide (q = out_pixel W (x * 2 + 0) (y * 2 + 1)) then Some (block_pixel pR pG pB tr 2)
    else if decide (q = out_pixel W (x * 2 + 1) (y * 2 + 0)) then Some (block_pixel pR pG pB tr 1)
    else if decide (q = out_pixel W (x * 2 + 0) (y * 2 + 0)) then Some (block_pixel pR pG pB tr 0)
    else pixel_at data q.
Proof.
  unfold out_pixel. intros Hlen.
  unfold writeBlock2x2, block_pixel, targetIdx_of. simpl foldl.
  destruct tr;
    do 4 (rewrite pixel_at_write_px by (rewrite ?write_px_length; lia));
    done.
Qed.

Lemma out_pixel_inj W X Y X' Y' :
  X < W -> X' < W -> out_pixel W X Y = out_pixel W X' Y' -> X = X' /\ Y = Y'.
Proof.
  unfold out_pixel. intros HX HX' Heq.
  destruct (Nat.lt_trichotomy Y Y') as [Hlt | [-> | Hlt]].
  - exfalso. assert ((Y + 1) * W <= Y' * W) by (apply Nat.mul_le_mono_r; lia). lia.
  - lia.
  - exfalso. assert ((Y' + 1) * W <= Y * W) by (apply Nat.mul_le_mono_r; lia). lia.
Qed.

Lemma ink_value_bit (pat : pattern) i :
  bits4 pat -> i < 4 -> ink_value pat i = 0%Z \/ ink_value pat i = 255%Z.
Proof.
  intros [Hlen Hbits] Hi. unfold ink_value.
  destruct (lookup_lt_is_Some_2 pat i ltac:(lia)) as [bit Hbit].
  rewrite Hbit. simpl.
  destruct (Forall_lookup_1 _ _ _ _ Hbits Hbit) as [-> | ->]; simpl; lia.
Qed.

Lemma block_pixel_two_level pR pG pB tr i :
  bits4 pR -> bits4 pG -> bits4 pB -> i < 4 ->
  two_level (block_pixel pR pG pB tr i).
Proof.
  intros HR HG HB Hi. unfold block_pixel. destruct tr; simpl.
  - left. done.
  - right. split; [done|].
    auto using ink_value_bit.
Qed.

(** ** The orchestrator *)

(** With at least two shares the pattern generator never throws: it makes
    four draws and returns one well-formed pattern per share. *)
Lemma generatePatterns_total rnd (val : jsnum) n k :
  2 <= n ->
  exists pats,
    generatePatterns rnd val n k = Ok (pats, k + 4)
    /\ length pats = n /\ Forall bits4 pats.
Proof.
  intros Hn. rewrite generatePatterns_run.
  assert (Hpair : forall a b, bits4 (<[b := 1%Z]> (<[a := 1%Z]> clear_block))).
  { intros a b. apply bits4_insert, bits4_insert, bits4_clear. }
  destruct (classified_dark rnd val k).
  - destruct (decide (n = 2)) as [-> | Hn2]; [|destruct (decide (n = 3)) as [-> | Hn3]].
    + rewrite assign_ink_dark2. eexists; split; [reflexivity|]. split; [done|].
      repeat (apply Forall_cons; split; [apply Hpair|]). apply Forall_nil_2.
    + rewrite assign_ink_dark3. eexists; split; [reflexivity|]. split; [done|].
      repeat (apply Forall_cons; split; [apply Hpair|]). apply Forall_nil_2.
    + pose proof (assign_ink_dark_ge4 (permutation_at rnd k) (n - 4) (k + 4)) as E.
      replace (4 + (n - 4)) with n in E by lia. rewrite E. clear E.
      eexists; split; [reflexivity|]. split.
      * rewrite length_app, length_replicate. simpl. lia.
      * apply Forall_app. split.
        -- repeat (apply Forall_cons; split; [apply Hpair|]). apply Forall_nil_2.
        -- apply Forall_replicate, bits4_clear.
  - rewrite assign_ink_light. eexists; split; [reflexivity|].
    split; [apply length_replicate | apply Forall_replicate, Hpair].
Qed.

Section EncoderFacts.
Variable rnd : nat -> Q.
Variable sourceData : ImageData.
Variable shareCount : nat.
Variable isColor : bool.
Hypothesis shares_ge2 : 2 <= shareCount.

Local Abbreviation outWidth := (width sourceData * 2).

(** Rule for the body of the pixel loops: if every block the writer can
    produce for this pixel takes a buffer satisfying [Q0] to one
    satisfying [Q1], the body takes [shareCount] buffers satisfying [Q0]
    to [shareCount] buffers satisfying [Q1], with twelve draws. *)
Lemma process_pixel_rule (Q0 Q1 : list Z -> Prop) x y sharesData k :
  (forall d pR pG pB, bits4 pR -> bits4 pG -> bits4 pB -> Q0 d ->
     Q1 (writeBlock2x2 d x y outWidth pR pG pB (pixel_transparent sourceData x y))) ->
  length sharesData = shareCount ->
  Forall Q0 sharesData ->
  exists sharesData',
    process_pixel rnd sourceData shareCount isColor outWidth y sharesData x k
    = Ok (sharesData', k + 12)
    /\ length sharesData' = shareCount
    /\ Forall Q1 sharesData'.
Proof.
  intros Hblock Hlen HQ0. unfold process_pixel.
  set (i := (y * width sourceData + x) * 4).
  set (chan := if isColor then _ else _).
  destruct (generatePatterns_total rnd chan.1.1 shareCount k shares_ge2)
    as (patR & ER & HlenR & HbR).
  destruct (generatePatterns_total rnd chan.1.2 shareCount (k + 4) shares_ge2)
    as (patG & EG & HlenG & HbG).
  destruct (generatePatterns_total rnd chan.2 shareCount (k + 4 + 4) shares_ge2)
    as (patB & EB & HlenB & HbB).
  rewrite (bind_Ok _ _ _ _ _ ER), (bind_Ok _ _ _ _ _ EG), (bind_Ok _ _ _ _ _ EB).
  destruct (for_each_seq_invariant
    (fun j (acc : list (list Z)) =>
       length acc = shareCount
       /\ forall s d, acc !! s = Some d -> (s < j -> Q1 d) /\ (j <= s -> Q0 d))
    (write_share x y outWidth patR patG patB (pixel_transparent sourceData x y))
    0 shareCount 0 sharesData (k + 4 + 4 + 4)) as (acc & E & Hacc & HQ).
  - intros j acc k' Hj [Hacc HQ].
    destruct (lookup_lt_is_Some_2 acc j ltac:(lia)) as [d Hd].
    destruct (lookup_lt_is_Some_2 patR j ltac:(lia)) as [pR HpR].
    destruct (lookup_lt_is_Some_2 patG j ltac:(lia)) as [pG HpG].
    destruct (lookup_lt_is_Some_2 patB j ltac:(lia)) as [pB HpB].
    unfold write_share. rewrite Hd, HpR, HpG, HpB.
    eexists. split; [unfold mret, M_ret, ret; by rewrite Nat.add_0_r|].
    split; [by rewrite length_insert|].
    intros s d'. rewrite list_lookup_insert. case_decide as Hs.
    + destruct Hs as [<- _]. intros [= <-]. split; [|lia]. intros _.
      apply Hblock.
      * exact (Forall_lookup_1 _ _ _ _ HbR HpR).
      * exact (Forall_lookup_1 _ _ _ _ HbG HpG).
      * exact (Forall_lookup_1 _ _ _ _ HbB HpB).
      * apply (HQ j d Hd). lia.
    + intros Hd'. destruct (HQ s d' Hd') as [H1 H0].
      split; intros Hsj; [apply H1 | apply H0]; lia.
  - split; [done|]. intros s d Hd. split; [lia|]. intros _.
    exact (Forall_lookup_1 _ _ _ _ HQ0 Hd).
  - exists acc. split; [|split; [done|]].
    + etrans; [exact E|]. do 2 f_equal. lia.
    + apply Forall_lookup_2. intros s d Hd.
      apply (HQ s d Hd). apply lookup_lt_Some in Hd. simpl. lia.
Qed.

(** Rule for the two pixel loops.  [R y x] is what holds of every share
    buffer just before the source pixel [(x, y)] is processed; the end of
    a row hands over to the start of the next one. *)
Lemma pixel_loops_rule (R : nat -> nat -> list Z -> Prop) sharesData k :
  (forall x y d pR pG pB,
     x < width sourceData -> y < height sourceData ->
     bits4 pR -> bits4 pG -> bits4 pB ->
     R y x d ->
     R y (S x) (writeBlock2x2 d x y outWidth pR pG pB (pixel_transparent sourceData x y))) ->
  (forall y d, R y (width sourceData) d -> R (S y) 0 d) ->
  length sharesData = shareCount ->
  Forall (R 0 0) sharesData ->
  exists sharesData',
    for_each (fun sharesData y =>
                for_each (process_pixel rnd sourceData shareCount isColor outWidth y)
                         (seq 0 (width sourceData)) sharesData)
             (seq 0 (height sourceData)) sharesData k
    = Ok (sharesData', k + height sourceData * (width sourceData * 12))
    /\ length sharesData' = shareCount
    /\ Forall (R (height sourceData) 0) sharesData'.
Proof.
  intros Hpixel Hrow Hlen HR.
  destruct (for_each_seq_invariant
    (fun y (acc : list (list Z)) => length acc = shareCount /\ Forall (R y 0) acc)
    (fun sharesData y =>
       for_each (process_pixel rnd sourceData shareCount isColor outWidth y)
                (seq 0 (width sourceData)) sharesData)
    (width sourceData * 12) (height sourceData) 0 sharesData k)
    as (acc & E & Hacc & HR'); [|done|by exists acc].
  intros y acc k' Hy [Hacc HRy].
  destruct (for_each_seq_invariant
    (fun x (acc : list (list Z)) => length acc = shareCount /\ Forall (R y x) acc)
    (process_pixel rnd sourceData shareCount isColor outWidth y)
    12 (width sourceData) 0 acc k')
    as (acc' & E' & Hacc' & HR'); [|done|].
  - intros x acc1 k1 Hx [Hacc1 HR1].
    destruct (process_pixel_rule (R y x) (R y (S x)) x y acc1 k1)
      as (acc2 & E2 & Hacc2 & HR2); [|done|done|by exists acc2].
    intros d pR pG pB HbR HbG HbB Hd. apply Hpixel; [lia|lia|done..].
  - exists acc'. split; [done|]. split; [done|].
    eapply Forall_impl; [exact HR'|]. intros d Hd. by apply Hrow.
Qed.

(** The same rule for the whole encoder: the buffers start zero-filled
    and are wrapped, unchanged, into [ImageData] objects of twice the
    source dimensions. *)
Lemma generateVisualShares_rule (R : nat -> nat -> list Z -> Prop) k :
  (forall x y d pR pG pB,
     x < width sourceData -> y < height sourceData ->
     bits4 pR -> bits4 pG -> bits4 pB ->
     R y x d ->
     R y (S x) (writeBlock2x2 d x y outWidth pR pG pB (pixel_transparent sourceData x y))) ->
  (forall y d, R y (width sourceData) d -> R (S y) 0 d) ->
  R 0 0 (replicate (outWidth * (height sourceData * 2) * 4) 0%Z) ->
  exists shares,
    generateVisualShares rnd sourceData shareCount isColor k
    = Ok (shares, k + height sourceData * (width sourceData * 12))
    /\ length shares = shareCount
    /\ Forall (fun img =>
                 width img = width sourceData * 2
                 /\ height img = height sourceData * 2
                 /\ R (height sourceData) 0 (data img)) shares.
Proof.
  intros Hpixel Hrow Hinit. unfold generateVisualShares.
  destruct (pixel_loops_rule R
    (replicate shareCount (replicate (outWidth * (height sourceData * 2) * 4) 0%Z)) k)
    as (acc & E & Hacc & HR); [done|done|apply length_replicate| |].
  { by apply Forall_replicate. }
  eexists. split; [by rewrite (bind_Ok _ _ _ _ _ E)|].
  split; [by rewrite length_fmap|].
  apply Forall_fmap. eapply Forall_impl; [exact HR|]. by intros d Hd.
Qed.

End EncoderFacts.

(** ** Worked examples *)

Example generatePatterns_dark_3 :
  generatePatterns rnd_demo (Some 0%Q) 3 0
  = Ok ([[0; 1; 0; 1]; [0; 0; 1; 1]; [1; 0; 1; 0]]%Z, 4).
Proof. vm_compute. reflexivity. Qed.

Example generatePatterns_light_3 :
  generatePatterns rnd_demo (Some 200%Q) 3 0
  = Ok ([[0; 1; 0; 1]; [0; 1; 0; 1]; [0; 1; 0; 1]]%Z, 4).
Proof. vm_compute. reflexivity. Qed.

Example generatePatterns_dark_5 :
  generatePatterns rnd_demo (Some 0%Q) 5 0
  = Ok ([[0; 1; 0; 1]; [0; 0; 1; 1]; [1; 0; 1; 0]; [1; 1; 0; 0]; [0; 0; 0; 0]]%Z, 4).
Proof. vm_compute. reflexivity. Qed.

Example generatePatterns_dark_1 :
  generatePatterns rnd_demo (Some 0%Q) 1 0 = Throw TypeError.
Proof. vm_compute. reflexivity. Qed.

Example generateVisualShares_one_share :
  generateVisualShares rnd_demo img_demo 1 true 0 = Throw TypeError.
Proof. vm_compute. reflexivity. Qed.

Example generateVisualShares_two_shares :
  generateVisualShares rnd_demo img_demo 2 true 0
  = Ok ([ mkImageData 4 2
            [255; 0; 255; 255;  0; 255; 0; 255;  0; 0; 0; 0;  0; 0; 0; 0;
             255; 0; 255; 255;  0; 255; 0; 255;  0; 0; 0; 0;  0; 0; 0; 0]%Z;
          mkImageData 4 2
            [0; 255; 0; 255;  255; 0; 255; 255;  0; 0; 0; 0;  0; 0; 0; 0;
             0; 255; 0; 255;  255; 0; 255; 255;  0; 0; 0; 0;  0; 0; 0; 0]%Z ], 24).
Proof. vm_compute. reflexivity. Qed.

(** ** Properties of the pattern generator *)

Ltac decompose_or H :=
  repeat match type of H with
         | _ \/ _ => destruct H as [H | H]
         | False => destruct H
         end.

Lemma elem_of_four {A} (x a b c d : A) :
  x ∈ [a; b; c; d] <-> x = a \/ x = b \/ x = c \/ x = d.
Proof.
  rewrite !elem_of_cons, elem_of_nil.
  split; intros H; decompose_or H; auto 6.
Qed.

Lemma permutation_at_slots rnd k :
  unit_draws rnd ->
  exists a b c d, permutation_at rnd k = [a; b; c; d]
    /\ (a < 4 /\ b < 4 /\ c < 4 /\ d < 4)
    /\ (a <> b /\ a <> c /\ a <> d /\ b <> c /\ b <> d /\ c <> d).
Proof. intros H. apply orderings_spec, permutation_at_ordering, H. Qed.

Lemma ink_positions_ink_set (a b : nat) :
  a < 4 -> b < 4 -> ink_positions (ink_set a b) = {[a; b]}.
Proof.
  intros Ha Hb. apply set_eq. intros x.
  unfold ink_positions, ink_slots.
  rewrite elem_of_list_to_set, list_elem_of_filter, elem_of_seq.
  change (length (ink_set a b)) with 4.
  rewrite elem_of_union, !elem_of_singleton. split.
  - intros [Hx [_ Hlt]]. rewrite ink_set_lookup in Hx by lia.
    case_decide; [done | by inversion Hx].
  - intros Hx. split; [|lia].
    rewrite ink_set_lookup by lia. case_decide; [done | tauto].
Qed.

(** Claim C2 (ink-count invariant): for a share count of 2, 3 or 4 and any
    channel value, [generatePatterns] returns one pattern per share, and
    every pattern is a 4-bit vector with exactly 2 ink bits, whichever way
    the channel was classified. *)
Theorem C2_ink_count_invariant rnd (val : jsnum) (n k : nat) :
  unit_draws rnd ->
  2 <= n <= 4 ->
  exists pats,
    generatePatterns rnd val n k = Ok (pats, k + 4)
    /\ length pats = n
    /\ Forall (fun pat => bits4 pat /\ ink_count pat = 2) pats.
Proof.
  intros Hrnd Hn.
  destruct (permutation_at_slots rnd k Hrnd) as (a & b & c & d & Hp & Hlt & Hne).
  rewrite generatePatterns_run, Hp.
  assert (Hset : forall x y, x < 4 -> y < 4 -> x <> y ->
            bits4 (ink_set x y) /\ ink_count (ink_set x y) = 2).
  { intros x y Hx Hy Hxy. split; [apply ink_set_bits4 | by apply ink_set_count]. }
  destruct (classified_dark rnd val k).
  - assert (n = 2 \/ n = 3 \/ n = 4) as [-> | [-> | ->]] by lia.
    + rewrite assign_ink_dark2. simpl. rewrite !ink_pair_pattern by lia.
      eexists; split; [reflexivity|]. split; [done|].
      repeat (apply Forall_cons; split; [apply Hset; lia|]). apply Forall_nil_2.
    + rewrite assign_ink_dark3. simpl. rewrite !ink_pair_pattern by lia.
      eexists; split; [reflexivity|]. split; [done|].
      repeat (apply Forall_cons; split; [apply Hset; lia|]). apply Forall_nil_2.
    + rewrite (assign_ink_dark_ge4 _ 0). simpl. rewrite !ink_pair_pattern by lia.
      eexists; split; [reflexivity|]. split; [done|].
      repeat (apply Forall_cons; split; [apply Hset; lia|]). apply Forall_nil_2.
  - rewrite assign_ink_light. simpl. rewrite ink_pair_pattern by lia.
    eexists; split; [reflexivity|]. split; [apply length_replicate|].
    apply Forall_replicate, Hset; lia.
Qed.

Lemma rnd_demo_unit : unit_draws rnd_demo.
Proof.
  intros k. unfold rnd_demo.
  pose proof (Nat.mod_upper_bound (k * 7 + 3) 10 ltac:(lia)) as Hk.
  split.
  - unfold Qle. simpl. lia.
  - unfold Qlt. simpl. lia.
Qed.

Lemma C2_ink_count_invariant_witness :
  exists pats,
    generatePatterns rnd_demo (Some 0%Q) 3 0 = Ok (pats, 0 + 4)
    /\ length pats = 3
    /\ Forall (fun pat => bits4 pat /\ ink_count pat = 2) pats.
Proof.
  apply (C2_ink_count_invariant rnd_demo (Some 0%Q) 3 0); [apply rnd_demo_unit | lia].
Defined.

(** Claim C3 (dark coverage): when the channel is classified dark and the
    share count is 2, 3 or 4, the ink positions of the returned patterns
    together are the whole slot set {0,1,2,3}. *)
Theorem C3_dark_coverage rnd (val : jsnum) (n k : nat) :
  unit_draws rnd ->
  2 <= n <= 4 ->
  classified_dark rnd val k = true ->
  exists pats,
    generatePatterns rnd val n k = Ok (pats, k + 4)
    /\ length pats = n
    /\ stacked pats = {[0; 1; 2; 3]}.
Proof.
  intros Hrnd Hn Hdark.
  pose proof (orderings_Permutation _ (permutation_at_ordering rnd Hrnd k)) as Hperm.
  destruct (permutation_at_slots rnd k Hrnd) as (a & b & c & d & Hp & Hlt & _).
  rewrite generatePatterns_run, Hdark. rewrite Hp in Hperm |- *.
  assert (Hcover : forall s : gset nat,
            (forall x, x ∈ s <-> x ∈ [a; b; c; d]) -> s = {[0; 1; 2; 3]}).
  { intros s Hs. apply set_eq. intros x.
    rewrite Hs, Hperm, elem_of_four, !elem_of_union, !elem_of_singleton.
    split; intros H; decompose_or H; auto 6. }
  clear Hperm.
  assert (n = 2 \/ n = 3 \/ n = 4) as [-> | [-> | ->]] by lia.
  - rewrite assign_ink_dark2. simpl. rewrite !ink_pair_pattern by lia.
    eexists; split; [reflexivity|]. split; [done|].
    unfold stacked. simpl. rewrite !ink_positions_ink_set by lia.
    apply Hcover. intros x.
    rewrite elem_of_four, !elem_of_union, !elem_of_singleton, elem_of_empty.
    split; intros H; decompose_or H; auto 6.
  - rewrite assign_ink_dark3. simpl. rewrite !ink_pair_pattern by lia.
    eexists; split; [reflexivity|]. split; [done|].
    unfold stacked. simpl. rewrite !ink_positions_ink_set by lia.
    apply Hcover. intros x.
    rewrite elem_of_four, !elem_of_union, !elem_of_singleton, elem_of_empty.
    split; intros H; decompose_or H; auto 6.
  - rewrite (assign_ink_dark_ge4 _ 0). simpl. rewrite !ink_pair_pattern by lia.
    eexists; split; [reflexivity|]. split; [done|].
    unfold stacked. simpl. rewrite !ink_positions_ink_set by lia.
    apply Hcover. intros x.
    rewrite elem_of_four, !elem_of_union, !elem_of_singleton, elem_of_empty.
    split; intros H; decompose_or H; auto 6.
Qed.

Lemma C3_dark_coverage_witness :
  exists pats,
    generatePatterns rnd_demo (Some 0%Q) 3 0 = Ok (pats, 0 + 4)
    /\ length pats = 3
    /\ stacked pats = {[0; 1; 2; 3]}.
Proof.
  apply (C3_dark_coverage rnd_demo (Some 0%Q) 3 0);
    [apply rnd_demo_unit | lia | reflexivity].
Defined.

(** Claim C4 (light uniformity): when the channel is classified light,
    every one of the [n] returned patterns is the same bit vector, with ink
    at the permuted positions p[0] and p[1] and nowhere else. *)
Theorem C4_light_uniformity rnd (val : jsnum) (n k : nat) :
  unit_draws rnd ->
  classified_dark rnd val k = false ->
  let p := permutation_at rnd k in
  generatePatterns rnd val n k = Ok (replicate n (ink_set (p !!! 0) (p !!! 1)), k + 4)
  /\ forall slot, slot < 4 ->
       ink_set (p !!! 0) (p !!! 1) !! slot
       = Some (if decide (slot = p !!! 0 \/ slot = p !!! 1) then 1%Z else 0%Z).
Proof.
  intros Hrnd Hlight p.
  destruct (permutation_at_slots rnd k Hrnd) as (a & b & c & d & Hp & Hlt & _).
  split; [|intros slot Hslot; by apply ink_set_lookup].
  rewrite generatePatterns_run, Hlight, assign_ink_light.
  subst p. rewrite Hp. simpl. by rewrite ink_pair_pattern by lia.
Qed.

Lemma C4_light_uniformity_witness :
  let p := permutation_at rnd_demo 0 in
  generatePatterns rnd_demo (Some 200%Q) 3 0
    = Ok (replicate 3 (ink_set (p !!! 0) (p !!! 1)), 0 + 4)
  /\ forall slot, slot < 4 ->
       ink_set (p !!! 0) (p !!! 1) !! slot
       = Some (if decide (slot = p !!! 0 \/ slot = p !!! 1) then 1%Z else 0%Z).
Proof.
  apply (C4_light_uniformity rnd_demo (Some 200%Q) 3 0);
    [apply rnd_demo_unit | reflexivity].
Defined.

(** Claim C5 (covering design): when the channel is classified dark, the
    returned patterns are those of the covering design over the permuted
    positions: {p0,p1},{p2,p3} for n=2; {p0,p1},{p1,p2},{p2,p3} for n=3;
    and additionally {p3,p0} for n=4. *)
Theorem C5_covering_design rnd (val : jsnum) (n k : nat) :
  unit_draws rnd ->
  2 <= n <= 4 ->
  classified_dark rnd val k = true ->
  let p := permutation_at rnd k in
  generatePatterns rnd val n k
  = Ok (covering_design n (p !!! 0) (p !!! 1) (p !!! 2) (p !!! 3), k + 4).
Proof.
  intros Hrnd Hn Hdark p.
  destruct (permutation_at_slots rnd k Hrnd) as (a & b & c & d & Hp & Hlt & _).
  rewrite generatePatterns_run, Hdark. subst p. rewrite Hp.
  assert (n = 2 \/ n = 3 \/ n = 4) as [-> | [-> | ->]] by lia.
  - rewrite assign_ink_dark2. simpl. by rewrite !ink_pair_pattern by lia.
  - rewrite assign_ink_dark3. simpl. by rewrite !ink_pair_pattern by lia.
  - rewrite (assign_ink_dark_ge4 _ 0). simpl. by rewrite !ink_pair_pattern by lia.
Qed.

Lemma C5_covering_design_witness :
  let p := permutation_at rnd_demo 0 in
  generatePatterns rnd_demo (Some 0%Q) 4 0
  = Ok (covering_design 4 (p !!! 0) (p !!! 1) (p !!! 2) (p !!! 3), 0 + 4).
Proof.
  apply (C5_covering_design rnd_demo (Some 0%Q) 4 0);
    [apply rnd_demo_unit | lia | reflexivity].
Defined.

(** Claim C9 (fallback past four shares): for a share count above 4 and a
    channel classified dark, [generatePatterns] returns [n] patterns and
    every pattern of index 4 or more is all clear: it has no ink bit at
    all, so it adds nothing to the stacked coverage. *)
Theorem C9_extra_shares_clear rnd (val : jsnum) (n k : nat) :
  4 < n ->
  classified_dark rnd val k = true ->
  exists pats,
    generatePatterns rnd val n k = Ok (pats, k + 4)
    /\ length pats = n
    /\ forall s, 4 <= s < n ->
         pats !! s = Some clear_block
         /\ ink_count clear_block = 0
         /\ ink_positions clear_block = ∅.
Proof.
  intros Hn Hdark.
  rewrite generatePatterns_run, Hdark.
  pose proof (assign_ink_dark_ge4 (permutation_at rnd k) (n - 4) (k + 4)) as E.
  replace (4 + (n - 4)) with n in E by lia. rewrite E. clear E.
  eexists; split; [reflexivity|]. split.
  - rewrite length_app, length_replicate. simpl. lia.
  - intros s Hs. split; [|done].
    rewrite lookup_app_r by (simpl; lia).
    apply lookup_replicate_2. simpl. lia.
Qed.

Lemma C9_extra_shares_clear_witness :
  exists pats,
    generatePatterns rnd_demo (Some 0%Q) 6 0 = Ok (pats, 0 + 4)
    /\ length pats = 6
    /\ forall s, 4 <= s < 6 ->
         pats !! s = Some clear_block
         /\ ink_count clear_block = 0
         /\ ink_positions clear_block = ∅.
Proof.
  apply (C9_extra_shares_clear rnd_demo (Some 0%Q) 6 0); [lia | reflexivity].
Defined.

(** ** Properties of the encoder *)

Lemma block_in_range w h x y :
  x < w -> y < h ->
  out_pixel (w * 2) (x * 2 + 1) (y * 2 + 1) * 4 + 3 < w * 2 * (h * 2) * 4.
Proof.
  intros Hx Hy. unfold out_pixel.
  assert ((y * 2 + 2) * (w * 2) <= h * 2 * (w * 2)) by (apply Nat.mul_le_mono_r; lia).
  lia.
Qed.

Lemma pixel_at_Some data q r g b a :
  pixel_at data q = Some (r, g, b, a) <->
  data !! (q * 4) = Some r /\ data !! (q * 4 + 1) = Some g
  /\ data !! (q * 4 + 2) = Some b /\ data !! (q * 4 + 3) = Some a.
Proof.
  unfold pixel_at.
  destruct (data !! (q * 4)), (data !! (q * 4 + 1)),
    (data !! (q * 4 + 2)), (data !! (q * 4 + 3));
    (split; [intros [=]; by subst | intros (? & ? & ? & ?); by simplify_eq]).
Qed.

Lemma pixel_at_zeros L q px :
  pixel_at (replicate L 0%Z) q = Some px -> px = (0, 0, 0, 0)%Z.
Proof.
  destruct px as [[[r g] b] a]. rewrite pixel_at_Some.
  intros (Hr & Hg & Hb & Ha).
  apply lookup_replicate_1 in Hr as [-> _]. apply lookup_replicate_1 in Hg as [-> _].
  apply lookup_replicate_1 in Hb as [-> _]. apply lookup_replicate_1 in Ha as [-> _].
  done.
Qed.

Lemma pixel_at_in_range data q :
  q * 4 + 3 < length data -> is_Some (pixel_at data q).
Proof.
  intros Hq. unfold pixel_at.
  destruct (lookup_lt_is_Some_2 data (q * 4) ltac:(lia)) as [r ->].
  destruct (lookup_lt_is_Some_2 data (q * 4 + 1) ltac:(lia)) as [g ->].
  destruct (lookup_lt_is_Some_2 data (q * 4 + 2) ltac:(lia)) as [b ->].
  destruct (lookup_lt_is_Some_2 data (q * 4 + 3) ltac:(lia)) as [a ->].
  by eexists.
Qed.

Lemma alpha_below_50 (a : Z) :
  (a < 50)%Z -> js_lt (byte_num (Some a)) 50 = true.
Proof.
  intros Ha. simpl. unfold Qltb. apply negb_true_iff.
  destruct (Qle_bool 50 (inject_Z a)) eqn:E; [|done].
  apply Qle_bool_iff in E. change 50%Q with (inject_Z 50) in E.
  rewrite <- Zle_Qle in E. lia.
Qed.

(** From two shares on the encoder never throws, and its buffers have twice
    the source dimensions. *)
Lemma generateVisualShares_dimensions rnd (sourceData : ImageData)
    (shareCount : nat) (isColor : bool) (k : nat) :
  2 <= shareCount ->
  exists shares k',
    generateVisualShares rnd sourceData shareCount isColor k = Ok (shares, k')
    /\ length shares = shareCount
    /\ Forall (fun img =>
                 width img = 2 * width sourceData
                 /\ height img = 2 * height sourceData
                 /\ length (data img) = width img * height img * 4) shares.
Proof.
  intros Hn.
  destruct (generateVisualShares_rule rnd sourceData shareCount isColor Hn
    (fun _ _ d => length d = width sourceData * 2 * (height sourceData * 2) * 4) k)
    as (shares & E & Hlen & Hall).
  - intros x y d pR pG pB _ _ _ _ _ Hd. by rewrite writeBlock2x2_length.
  - done.
  - apply length_replicate.
  - exists shares, (k + height sourceData * (width sourceData * 12)).
    split; [done|]. split; [done|].
    eapply Forall_impl; [exact Hall|].
    intros img (Hw & Hh & Hd). rewrite Hw, Hh, Hd. lia.
Qed.

(** With fewer than two shares a dark channel makes the pattern generator
    assign through a missing entry: the only error the encoder can raise. *)
Lemma generatePatterns_lt2_dark rnd (val : jsnum) n k :
  n < 2 -> classified_dark rnd val k = true ->
  generatePatterns rnd val n k = Throw TypeError.
Proof.
  intros Hn Hdark. rewrite generatePatterns_run, Hdark. by apply assign_ink_dark_lt2.
Qed.

(** Claim C7 (dimension law): for every source image of [w] x [h] pixels
    and every accepted share count (2, 3 or 4) the encoder returns, without
    throwing, exactly [shareCount] buffers, each [2w] wide and [2h] high
    (and holding the [2w * 2h] RGBA pixels that go with these dimensions). *)
Theorem C7_dimension_law rnd (sourceData : ImageData) (shareCount : nat)
    (isColor : bool) (k : nat) :
  2 <= shareCount <= 4 ->
  exists shares k',
    generateVisualShares rnd sourceData shareCount isColor k = Ok (shares, k')
    /\ length shares = shareCount
    /\ Forall (fun img =>
                 width img = 2 * width sourceData
                 /\ height img = 2 * height sourceData
                 /\ length (data img) = width img * height img * 4) shares.
Proof.
  intros [Hn _]. by apply generateVisualShares_dimensions.
Qed.

Lemma C7_dimension_law_witness :
  exists shares k',
    generateVisualShares rnd_demo img_demo 3 true 0 = Ok (shares, k')
    /\ length shares = 3
    /\ Forall (fun img =>
                 width img = 2 * width img_demo
                 /\ height img = 2 * height img_demo
                 /\ length (data img) = width img * height img * 4) shares.
Proof.
  apply (C7_dimension_law rnd_demo img_demo 3 true 0). lia.
Defined.

(** Claim C10 (two-level output): for every source image and every share
    count in 2..4 the encoder returns, and every pixel of every returned
    share is either (0,0,0,0) or has alpha 255 and each of R, G, B equal to
    0 or 255. *)
Theorem C10_two_level_output rnd (sourceData : ImageData) (shareCount : nat)
    (isColor : bool) (k : nat) :
  2 <= shareCount <= 4 ->
  exists shares k',
    generateVisualShares rnd sourceData shareCount isColor k = Ok (shares, k')
    /\ Forall (fun img =>
                 forall q, q < width img * height img ->
                   exists px, pixel_at (data img) q = Some px /\ two_level px) shares.
Proof.
  intros [Hn _].
  set (L := width sourceData * 2 * (height sourceData * 2) * 4).
  destruct (generateVisualShares_rule rnd sourceData shareCount isColor Hn
    (fun _ _ d => length d = L
                  /\ forall q px, pixel_at d q = Some px -> two_level px) k)
    as (shares & E & Hlen & Hall).
  - intros x y d pR pG pB Hx Hy HbR HbG HbB [Hd Hpx].
    split; [by rewrite writeBlock2x2_length|].
    intros q px. rewrite pixel_at_writeBlock2x2
      by (rewrite Hd; by apply block_in_range).
    repeat case_decide;
      try (intros [= <-]; apply block_pixel_two_level; (done || lia)).
    apply Hpx.
  - done.
  - split; [apply length_replicate|].
    intros q px Hq. apply pixel_at_zeros in Hq as ->. left. done.
  - exists shares, (k + height sourceData * (width sourceData * 12)).
    split; [done|].
    eapply Forall_impl; [exact Hall|].
    intros img (Hw & Hh & Hd & Hpx) q Hq.
    destruct (pixel_at_in_range (data img) q) as [px Hq'].
    { rewrite Hd. unfold L. rewrite Hw, Hh in Hq. lia. }
    exists px. split; [done|]. by eapply Hpx.
Qed.

Lemma C10_two_level_output_witness :
  exists shares k',
    generateVisualShares rnd_demo img_demo 2 false 0 = Ok (shares, k')
    /\ Forall (fun img =>
                 forall q, q < width img * height img ->
                   exists px, pixel_at (data img) q = Some px /\ two_level px) shares.
Proof.
  apply (C10_two_level_output rnd_demo img_demo 2 false 0). lia.
Defined.

(** Claim C6 (transparency pass-through): if the source pixel [(x, y)] has
    an alpha component below 50 then every pixel of its 2x2 block is
    written as (0,0,0,0) in every share, whatever its colour, whatever
    patterns were drawn and whatever the buffers held before.  Stated at
    the three levels of the code: the block writer with the transparent
    flag, on any buffer and any patterns; the body of the pixel loops for
    this pixel, on share buffers of any contents; the encoder's result. *)
Theorem C6_transparency_pass_through rnd (sourceData : ImageData)
    (shareCount : nat) (isColor : bool) (k x y : nat) (a : Z) :
  2 <= shareCount <= 4 ->
  x < width sourceData -> y < height sourceData ->
  data sourceData !! ((y * width sourceData + x) * 4 + 3) = Some a ->
  (a < 50)%Z ->
  (forall (d : list Z) (W : nat) (pR pG pB : pattern) dx dy,
     out_pixel W (x * 2 + 1) (y * 2 + 1) * 4 + 3 < length d ->
     dx < 2 -> dy < 2 ->
     pixel_at (writeBlock2x2 d x y W pR pG pB true)
       (out_pixel W (x * 2 + dx) (y * 2 + dy))
     = Some (0, 0, 0, 0)%Z)
  /\ (forall (sharesData : list (list Z)) k0,
        length sharesData = shareCount ->
        Forall (fun d => length d
                         = width sourceData * 2 * (height sourceData * 2) * 4)
               sharesData ->
        exists sharesData',
          process_pixel rnd sourceData shareCount isColor
            (width sourceData * 2) y sharesData x k0
          = Ok (sharesData', k0 + 12)
          /\ length sharesData' = shareCount
          /\ Forall (fun d =>
                       forall dx dy, dx < 2 -> dy < 2 ->
                         pixel_at d
                           (out_pixel (width sourceData * 2) (x * 2 + dx) (y * 2 + dy))
                         = Some (0, 0, 0, 0)%Z) sharesData')
  /\ exists shares k',
       generateVisualShares rnd sourceData shareCount isColor k = Ok (shares, k')
       /\ length shares = shareCount
       /\ Forall (fun img =>
                    forall dx dy, dx < 2 -> dy < 2 ->
                      pixel_at (data img)
                        (out_pixel (width img) (x * 2 + dx) (y * 2 + dy))
                      = Some (0, 0, 0, 0)%Z) shares.
Proof.
  intros [Hn _] Hx Hy Ha Ha50.
  set (W := width sourceData * 2).
  set (L := W * (height sourceData * 2) * 4).
  assert (Htr : pixel_transparent sourceData x y = true).
  { unfold pixel_transparent. rewrite Ha. by apply alpha_below_50. }
  assert (Hwriter : forall (d : list Z) (W' : nat) (pR pG pB : pattern) dx dy,
            out_pixel W' (x * 2 + 1) (y * 2 + 1) * 4 + 3 < length d ->
            dx < 2 -> dy < 2 ->
            pixel_at (writeBlock2x2 d x y W' pR pG pB true)
              (out_pixel W' (x * 2 + dx) (y * 2 + dy))
            = Some (0, 0, 0, 0)%Z).
  { intros d W' pR pG pB dx dy Hrange Hdx Hdy.
    rewrite pixel_at_writeBlock2x2 by done. unfold block_pixel.
    repeat case_decide; try done.
    exfalso.
    assert (dx = 0 \/ dx = 1) as [-> | ->] by lia;
      (assert (dy = 0 \/ dy = 1) as [-> | ->] by lia); congruence. }
  split; [exact Hwriter|]. split.
  - intros sharesData k0 Hlen Hall.
    destruct (process_pixel_rule rnd sourceData shareCount isColor Hn
      (fun d => length d = L)
      (fun d => forall dx dy, dx < 2 -> dy < 2 ->
                  pixel_at d (out_pixel W (x * 2 + dx) (y * 2 + dy))
                  = Some (0, 0, 0, 0)%Z)
      x y sharesData k0) as (sharesData' & E & Hlen' & Hall'); [|done|done|].
    + intros d pR pG pB _ _ _ Hd dx dy Hdx Hdy. rewrite Htr.
      apply Hwriter; [|done|done].
      rewrite Hd. by apply block_in_range.
    + by exists sharesData'.
  - destruct (generateVisualShares_rule rnd sourceData shareCount isColor Hn
      (fun y' x' d =>
         length d = L
         /\ (y < y' \/ (y' = y /\ x < x') ->
             forall dx dy, dx < 2 -> dy < 2 ->
               pixel_at d (out_pixel W (x * 2 + dx) (y * 2 + dy))
               = Some (0, 0, 0, 0)%Z)) k)
      as (shares & E & Hlen & Hall).
    + intros x' y' d pR pG pB Hx' Hy' _ _ _ [Hd Hblock].
      split; [by rewrite writeBlock2x2_length|].
      intros Hpast dx dy Hdx Hdy.
      destruct (decide (x' = x /\ y' = y)) as [[-> ->] | Hother].
      * rewrite Htr. apply Hwriter; [|done|done].
        rewrite Hd. by apply block_in_range.
      * rewrite pixel_at_writeBlock2x2 by (rewrite Hd; by apply block_in_range).
        assert (Hne : forall ex ey, ex < 2 -> ey < 2 ->
                  out_pixel W (x * 2 + dx) (y * 2 + dy)
                  <> out_pixel W (x' * 2 + ex) (y' * 2 + ey)).
        { intros ex ey Hex Hey Heq.
          apply out_pixel_inj in Heq; unfold W; lia. }
        rewrite decide_False by (apply Hne; lia).
        rewrite decide_False by (apply Hne; lia).
        rewrite decide_False by (apply Hne; lia).
        rewrite decide_False by (apply Hne; lia).
        apply Hblock; [lia|done|done].
    + intros y' d [Hd Hblock]. split; [done|].
      intros Hpast. apply Hblock. lia.
    + split; [apply length_replicate|]. intros Hpast. lia.
    + exists shares, (k + height sourceData * (width sourceData * 12)).
      split; [done|]. split; [done|].
      eapply Forall_impl; [exact Hall|].
      intros img (Hw & Hh & Hd & Hblock) dx dy Hdx Hdy.
      rewrite Hw. apply Hblock; [lia|done|done].
Qed.

Lemma C6_transparency_pass_through_witness :
  (forall (d : list Z) (W : nat) (pR pG pB : pattern) dx dy,
     out_pixel W (1 * 2 + 1) (0 * 2 + 1) * 4 + 3 < length d ->
     dx < 2 -> dy < 2 ->
     pixel_at (writeBlock2x2 d 1 0 W pR pG pB true)
       (out_pixel W (1 * 2 + dx) (0 * 2 + dy))
     = Some (0, 0, 0, 0)%Z)
  /\ (forall (sharesData : list (list Z)) k0,
        length sharesData = 3 ->
        Forall (fun d => length d
                         = width img_demo * 2 * (height img_demo * 2) * 4)
               sharesData ->
        exists sharesData',
          process_pixel rnd_demo img_demo 3 true
            (width img_demo * 2) 0 sharesData 1 k0
          = Ok (sharesData', k0 + 12)
          /\ length sharesData' = 3
          /\ Forall (fun d =>
                       forall dx dy, dx < 2 -> dy < 2 ->
                         pixel_at d
                           (out_pixel (width img_demo * 2) (1 * 2 + dx) (0 * 2 + dy))
                         = Some (0, 0, 0, 0)%Z) sharesData')
  /\ exists shares k',
       generateVisualShares rnd_demo img_demo 3 true 0 = Ok (shares, k')
       /\ length shares = 3
       /\ Forall (fun img =>
                    forall dx dy, dx < 2 -> dy < 2 ->
                      pixel_at (data img)
                        (out_pixel (width img) (1 * 2 + dx) (0 * 2 + dy))
                      = Some (0, 0, 0, 0)%Z) shares.
Proof.
  apply (C6_transparency_pass_through rnd_demo img_demo 3 true 0 1 0 10);
    [lia | simpl; lia | simpl; lia | reflexivity | lia].
Defined.

(** Claim C8 (block writer colours): for a non-transparent pixel and each
    of the four slots, the block writer stores R = (1 - inkR[slot]) x 255,
    G = (1 - inkG[slot]) x 255, B = (1 - inkB[slot]) x 255 and A = 255 at
    the slot's position; an ink bit 1 gives colour 0, an ink bit 0 gives
    colour 255. *)
Theorem C8_block_writer_colours (data : list Z) (x y W : nat)
    (pR pG pB : pattern) (dx dy i : nat) (bR bG bB : Z) :
  (dx, dy, i) ∈ offsets ->
  x * 2 + 1 < W ->
  targetIdx_of x y W 1 1 + 3 < length data ->
  pR !! i = Some bR -> pG !! i = Some bG -> pB !! i = Some bB ->
  (bR = 0 \/ bR = 1)%Z -> (bG = 0 \/ bG = 1)%Z -> (bB = 0 \/ bB = 1)%Z ->
  let data' := writeBlock2x2 data x y W pR pG pB false in
  let targetIdx := targetIdx_of x y W dx dy in
  (data' !! targetIdx = Some (ink_colour bR)
   /\ data' !! (targetIdx + 1) = Some (ink_colour bG)
   /\ data' !! (targetIdx + 2) = Some (ink_colour bB)
   /\ data' !! (targetIdx + 3) = Some 255%Z)
  /\ ink_colour 1 = 0%Z /\ ink_colour 0 = 255%Z.
Proof.
  intros Hoff HxW Hlen HR HG HB HbR HbG HbB data' targetIdx.
  split; [|done].
  apply pixel_at_Some. subst data' targetIdx.
  change (targetIdx_of x y W 1 1) with (out_pixel W (x * 2 + 1) (y * 2 + 1) * 4) in Hlen.
  rewrite pixel_at_writeBlock2x2 by done.
  assert (Hval : block_pixel pR pG pB false i
                 = (ink_colour bR, ink_colour bG, ink_colour bB, 255%Z)).
  { unfold block_pixel, ink_value, ink_colour. rewrite HR, HG, HB. simpl.
    destruct HbR as [-> | ->], HbG as [-> | ->], HbB as [-> | ->]; reflexivity. }
  assert (Hne : forall ex ey ex' ey', ex < 2 -> ey < 2 -> ex' < 2 -> ey' < 2 ->
            (ex, ey) <> (ex', ey') ->
            out_pixel W (x * 2 + ex) (y * 2 + ey)
            <> out_pixel W (x * 2 + ex') (y * 2 + ey')).
  { intros ex ey ex' ey' ? ? ? ? Hdiff Heq.
    apply out_pixel_inj in Heq as [? ?]; [|lia..].
    apply Hdiff. f_equal; lia. }
  unfold offsets in Hoff.
  repeat (apply elem_of_cons in Hoff as [[= -> -> ->] | Hoff]);
    [| | | |by apply elem_of_nil in Hoff];
    rewrite <- Hval;
    repeat (rewrite decide_False by (apply Hne; (lia || congruence)));
    by rewrite decide_True by done.
Qed.

Lemma C8_block_writer_colours_witness :
  let data' := writeBlock2x2 (replicate 16 0%Z) 0 0 2
                 [0; 1; 0; 1]%Z [1; 1; 0; 0]%Z [0; 0; 1; 1]%Z false in
  let targetIdx := targetIdx_of 0 0 2 1 0 in
  (data' !! targetIdx = Some (ink_colour 1)
   /\ data' !! (targetIdx + 1) = Some (ink_colour 1)
   /\ data' !! (targetIdx + 2) = Some (ink_colour 0)
   /\ data' !! (targetIdx + 3) = Some 255%Z)
  /\ ink_colour 1 = 0%Z /\ ink_colour 0 = 255%Z.
Proof.
  apply (C8_block_writer_colours (replicate 16 0%Z) 0 0 2
           [0; 1; 0; 1]%Z [1; 1; 0; 0]%Z [0; 0; 1; 1]%Z 1 0 1 1 1 0);
    [ apply (bool_decide_unpack _); vm_compute; exact I
    | lia | simpl; lia | reflexivity | reflexivity | reflexivity
    | lia | lia | lia ].
Defined.

(** Claim C1, as stated, fails: a request for five shares is not rejected;
    the encoder allocates and returns five buffers. *)
Lemma C1_counterexample :
  ~ (2 <= 5 <= 4)
  /\ exists shares k',
       generateVisualShares rnd_demo img_demo 5 false 0 = Ok (shares, k')
       /\ length shares = 5.
Proof.
  split; [lia|].
  destruct (generateVisualShares_dimensions rnd_demo img_demo 5 false 0 ltac:(lia))
    as (shares & k' & E & Hlen & _).
  by exists shares, k'.
Qed.

(** Claim C1, amended: the encoder performs no validation of [shareCount].
    For every share count above 4 it does not reject the request: it
    allocates [shareCount] buffers and returns them, each of twice the
    source dimensions. *)
Theorem C1_no_rejection_above_four rnd (sourceData : ImageData)
    (shareCount : nat) (isColor : bool) (k : nat) :
  4 < shareCount ->
  exists shares k',
    generateVisualShares rnd sourceData shareCount isColor k = Ok (shares, k')
    /\ length shares = shareCount
    /\ Forall (fun img =>
                 width img = 2 * width sourceData
                 /\ height img = 2 * height sourceData
                 /\ length (data img) = width img * height img * 4) shares.
Proof.
  intros Hn. apply generateVisualShares_dimensions. lia.
Qed.

Lemma C1_no_rejection_above_four_witness :
  exists shares k',
    generateVisualShares rnd_demo img_demo 7 true 0 = Ok (shares, k')
    /\ length shares = 7
    /\ Forall (fun img =>
                 width img = 2 * width img_demo
                 /\ height img = 2 * height img_demo
                 /\ length (data img) = width img * height img * 4) shares.
Proof.
  apply (C1_no_rejection_above_four rnd_demo img_demo 7 true 0). lia.
Defined.

(** ** Further properties of the shuffle and of the threshold *)

Lemma swaps_ordering j3 j2 j1 :
  j3 <= 3 -> j2 <= 2 -> j1 <= 1 ->
  swap (swap (swap [0; 1; 2; 3] 3 j3) 2 j2) 1 j1 ∈ orderings.
Proof.
  intros H3 H2 H1.
  destruct j3 as [|[|[|[|j3]]]]; [| | | |lia];
    (destruct j2 as [|[|[|j2]]]; [| | |lia]);
    (destruct j1 as [|[|j1]]; [| |lia]);
    apply (bool_decide_unpack _); vm_compute; exact I.
Qed.

(** X1: under the contract of [Math.random] the Fisher-Yates loop never
    throws, makes exactly three draws and returns a permutation of the
    four slots [0, 1, 2, 3]. *)
Theorem X1_shuffle_permutation rnd k :
  unit_draws rnd ->
  exists p, shuffle rnd k = Ok (p, k + 3) /\ p ≡ₚ [0; 1; 2; 3].
Proof.
  intros Hrnd.
  exists (swap (swap (swap [0; 1; 2; 3] 3 (fy_index (rnd k) 3))
                     2 (fy_index (rnd (S k)) 2))
               1 (fy_index (rnd (S (S k))) 1)).
  split.
  - replace (k + 3) with (S (S (S k))) by lia. reflexivity.
  - apply orderings_Permutation, swaps_ordering; apply fy_index_bound; apply Hrnd.
Qed.

Lemma X1_shuffle_permutation_witness :
  exists p, shuffle rnd_demo 1 = Ok (p, 1 + 3) /\ p ≡ₚ [0; 1; 2; 3].
Proof. apply (X1_shuffle_permutation rnd_demo 1). apply rnd_demo_unit. Defined.

Lemma rnd_of_unit j3 j2 j1 :
  j3 <= 3 -> j2 <= 2 -> j1 <= 1 -> unit_draws (rnd_of j3 j2 j1).
Proof.
  intros H3 H2 H1 k. unfold rnd_of.
  destruct k as [|[|[|k]]]; unfold Qle, Qlt; simpl; lia.
Qed.

Lemma Permutation_orderings (p : list nat) :
  p ≡ₚ [0; 1; 2; 3] -> p ∈ orderings.
Proof.
  intros Hp.
  assert (Hnd : NoDup p).
  { rewrite Hp. repeat (apply NoDup_cons; split; [set_unfold; lia|]). apply NoDup_nil_2. }
  assert (Hin : forall x, x ∈ p -> x < 4).
  { intros x. rewrite Hp, elem_of_four. lia. }
  pose proof (Permutation_length Hp) as Hlen.
  destruct p as [|a [|b [|c [|d [|e p]]]]]; try discriminate Hlen.
  assert (a < 4) as Ha by (apply Hin; set_unfold; auto).
  assert (b < 4) as Hb by (apply Hin; set_unfold; auto).
  assert (c < 4) as Hc by (apply Hin; set_unfold; auto).
  assert (d < 4) as Hd by (apply Hin; set_unfold; auto 6).
  clear Hp Hin Hlen. revert Hnd.
  destruct a as [|[|[|[|a]]]]; [| | | |lia];
    (destruct b as [|[|[|[|b]]]]; [| | | |lia]);
    (destruct c as [|[|[|[|c]]]]; [| | | |lia]);
    (destruct d as [|[|[|[|d]]]]; [| | | |lia]);
    apply (bool_decide_unpack _); vm_compute; exact I.
Qed.

Ltac by_triple a b c :=
  exists a, b, c; split; [lia|]; split; [lia|]; split; [lia|];
  vm_compute; reflexivity.
Ltac try_j1 a b := first [by_triple a b 0 | by_triple a b 1].
Ltac try_j2 a := first [try_j1 a 0 | try_j1 a 1 | try_j1 a 2].
Ltac try_j3 := first [try_j2 0 | try_j2 1 | try_j2 2 | try_j2 3].

Lemma orderings_reachable (p : list nat) :
  p ∈ orderings ->
  exists j3 j2 j1, j3 <= 3 /\ j2 <= 2 /\ j1 <= 1
    /\ shuffle (rnd_of j3 j2 j1) 0 = Ok (p, 3).
Proof.
  unfold orderings. intros H.
  repeat (apply elem_of_cons in H as [-> | H]); [try_j3 .. |].
  by apply elem_of_nil in H.
Qed.

(** X2: the shuffle can return every ordering of the four slots: for each
    permutation of [0, 1, 2, 3] there are draws in [0,1) on which the
    Fisher-Yates loop returns exactly that permutation. *)
Theorem X2_shuffle_onto (p : list nat) :
  p ≡ₚ [0; 1; 2; 3] ->
  exists rnd, unit_draws rnd /\ shuffle rnd 0 = Ok (p, 3).
Proof.
  intros Hp.
  destruct (orderings_reachable p (Permutation_orderings p Hp))
    as (j3 & j2 & j1 & H3 & H2 & H1 & E).
  exists (rnd_of j3 j2 j1). split; [by apply rnd_of_unit | done].
Qed.

Lemma X2_shuffle_onto_witness :
  exists rnd, unit_draws rnd /\ shuffle rnd 0 = Ok ([2; 0; 3; 1], 3).
Proof.
  apply (X2_shuffle_onto [2; 0; 3; 1]).
  apply orderings_Permutation. apply (bool_decide_unpack _). vm_compute. exact I.
Defined.

Lemma threshold_band (u : Q) :
  (0 <= u)%Q -> (u < 1)%Q ->
  (98 <= threshold_of u)%Q /\ (threshold_of u < 158)%Q.
Proof. intros H0 H1. unfold threshold_of. split; lra. Qed.

Lemma Qltb_true (x y : Q) : Qltb x y = true <-> (x < y)%Q.
Proof.
  unfold Qltb. rewrite negb_true_iff.
  destruct (Qle_bool y x) eqn:E.
  - apply Qle_bool_iff in E. split; [done | intros H; lra].
  - split; [|done]. intros _.
    destruct (Qlt_le_dec x y) as [Hlt | Hle]; [done|].
    apply Qle_bool_iff in Hle. congruence.
Qed.

(** X3: the dither only matters inside the band 98..158: whatever the
    draw, a channel value below 98 is classified dark. *)
Theorem X3_dark_below_band rnd (v : Q) (k : nat) :
  unit_draws rnd -> (v < 98)%Q -> classified_dark rnd (Some v) k = true.
Proof.
  intros Hrnd Hv. destruct (Hrnd k) as [H0 H1].
  destruct (threshold_band (rnd k) H0 H1) as [Hlo Hhi].
  unfold classified_dark. simpl. apply Qltb_true. lra.
Qed.

Lemma X3_dark_below_band_witness : classified_dark rnd_demo (Some 97%Q) 8 = true.
Proof. apply (X3_dark_below_band rnd_demo 97 8 rnd_demo_unit). reflexivity. Defined.

(** X4: whatever the draw, a channel value of 158 or more is classified
    light. *)
Theorem X4_light_above_band rnd (v : Q) (k : nat) :
  unit_draws rnd -> (158 <= v)%Q -> classified_dark rnd (Some v) k = false.
Proof.
  intros Hrnd Hv. destruct (Hrnd k) as [H0 H1].
  destruct (threshold_band (rnd k) H0 H1) as [Hlo Hhi].
  unfold classified_dark. simpl.
  destruct (Qltb v (threshold_of (rnd k))) eqn:E; [|done].
  apply Qltb_true in E. lra.
Qed.

Lemma X4_light_above_band_witness : classified_dark rnd_demo (Some 158%Q) 8 = false.
Proof.
  apply (X4_light_above_band rnd_demo 158 8 rnd_demo_unit).
  unfold Qle. simpl. lia.
Defined.

(** ** Further properties of the pattern generator *)

(** X5: the pattern generator returns whenever there are at least two
    shares or the channel is classified light: it makes exactly four draws
    (one for the threshold, three for the shuffle) and returns one 4-bit
    pattern per share. *)
Theorem X5_generatePatterns_returns rnd (val : jsnum) (n k : nat) :
  2 <= n \/ classified_dark rnd val k = false ->
  exists pats,
    generatePatterns rnd val n k = Ok (pats, k + 4)
    /\ length pats = n /\ Forall bits4 pats.
Proof.
  intros [Hn | Hlight]; [by apply generatePatterns_total|].
  rewrite generatePatterns_run, Hlight, assign_ink_light.
  eexists. split; [reflexivity|].
  split; [apply length_replicate|].
  apply Forall_replicate, bits4_insert, bits4_insert, bits4_clear.
Qed.

Lemma X5_generatePatterns_returns_witness :
  exists pats,
    generatePatterns rnd_demo (Some 200%Q) 1 0 = Ok (pats, 0 + 4)
    /\ length pats = 1 /\ Forall bits4 pats.
Proof.
  apply (X5_generatePatterns_returns rnd_demo (Some 200%Q) 1 0).
  right. reflexivity.
Defined.

(** X6: with fewer than two shares a channel classified dark makes the
    pattern generator throw a [TypeError]: its last branch assigns into
    [patterns[1]] (or [patterns[0]]), which does not exist. *)
Theorem X6_generatePatterns_throws rnd (val : jsnum) (n k : nat) :
  n < 2 -> classified_dark rnd val k = true ->
  generatePatterns rnd val n k = Throw TypeError.
Proof. intros Hn Hdark. by apply generatePatterns_lt2_dark. Qed.

Lemma X6_generatePatterns_throws_witness :
  generatePatterns rnd_demo (Some 0%Q) 1 0 = Throw TypeError.
Proof.
  apply (X6_generatePatterns_throws rnd_demo (Some 0%Q) 1 0); [lia | reflexivity].
Defined.

(** The patterns of a dark channel, for any count from two on. *)
Lemma dark_patterns rnd (val : jsnum) (n k : nat) :
  unit_draws rnd -> 2 <= n -> classified_dark rnd val k = true ->
  exists a b c d,
    permutation_at rnd k = [a; b; c; d]
    /\ [a; b; c; d] ∈ orderings
    /\ generatePatterns rnd val n k
       = Ok (match n with
             | 2 => [ink_set a b; ink_set c d]
             | 3 => [ink_set a b; ink_set b c; ink_set c d]
             | _ => [ink_set a b; ink_set b c; ink_set c d; ink_set d a]
                    ++ replicate (n - 4) clear_block
             end, k + 4).
Proof.
  intros Hrnd Hn Hdark.
  pose proof (permutation_at_ordering rnd Hrnd k) as Hord.
  destruct (permutation_at_slots rnd k Hrnd) as (a & b & c & d & Hp & Hlt & _).
  exists a, b, c, d. rewrite Hp in Hord. split; [done|]. split; [done|].
  rewrite generatePatterns_run, Hdark, Hp.
  destruct n as [|[|[|[|n]]]]; [lia | lia | | |].
  - rewrite assign_ink_dark2. simpl. by rewrite !ink_pair_pattern by lia.
  - rewrite assign_ink_dark3. simpl. by rewrite !ink_pair_pattern by lia.
  - rewrite (assign_ink_dark_ge4 _ n). simpl. rewrite !ink_pair_pattern by lia.
    by rewrite Nat.sub_0_r.
Qed.

(** X7: share 0 never depends on the classification: for every channel
    value and every count from two on, its pattern is the pair
    {p[0], p[1]} of the shuffled slots, whether the channel came out dark
    or light. *)
Theorem X7_share0_independent rnd (val : jsnum) (n k : nat) :
  unit_draws rnd -> 2 <= n ->
  let p := permutation_at rnd k in
  exists pats,
    generatePatterns rnd val n k = Ok (pats, k + 4)
    /\ pats !! 0 = Some (ink_set (p !!! 0) (p !!! 1)).
Proof.
  intros Hrnd Hn p. subst p.
  destruct (classified_dark rnd val k) eqn:Hdark.
  - destruct (dark_patterns rnd val n k Hrnd Hn Hdark) as (a & b & c & d & Hp & _ & E).
    rewrite E, Hp. eexists. split; [reflexivity|].
    destruct n as [|[|[|[|n]]]]; try lia; reflexivity.
  - destruct (permutation_at_slots rnd k Hrnd) as (a & b & c & d & Hp & Hlt & _).
    rewrite generatePatterns_run, Hdark, assign_ink_light, Hp. simpl.
    rewrite ink_pair_pattern by lia.
    eexists. split; [reflexivity|]. apply lookup_replicate_2. lia.
Qed.

Lemma X7_share0_independent_witness :
  let p := permutation_at rnd_demo 0 in
  exists pats,
    generatePatterns rnd_demo (Some 0%Q) 3 0 = Ok (pats, 0 + 4)
    /\ pats !! 0 = Some (ink_set (p !!! 0) (p !!! 1)).
Proof.
  apply (X7_share0_independent rnd_demo (Some 0%Q) 3 0); [apply rnd_demo_unit | lia].
Defined.

Lemma ink_set_complement (p : list nat) :
  p ∈ orderings ->
  ink_set (p !!! 2) (p !!! 3) = complement (ink_set (p !!! 0) (p !!! 1)).
Proof.
  unfold orderings. intros H.
  repeat (apply elem_of_cons in H as [-> | H]); [reflexivity .. |].
  by apply elem_of_nil in H.
Qed.

(** X8: for two shares and a dark channel the second share is the bitwise
    complement of the first (the two-out-of-two scheme). *)
Theorem X8_two_shares_complement rnd (val : jsnum) (k : nat) :
  unit_draws rnd -> classified_dark rnd val k = true ->
  exists share0,
    generatePatterns rnd val 2 k = Ok ([share0; complement share0], k + 4).
Proof.
  intros Hrnd Hdark.
  destruct (dark_patterns rnd val 2 k Hrnd ltac:(lia) Hdark)
    as (a & b & c & d & Hp & Hord & E).
  exists (ink_set a b). rewrite E.
  pose proof (ink_set_complement [a; b; c; d] Hord) as Hc.
  change (ink_set c d = complement (ink_set a b)) in Hc.
  by rewrite <- Hc.
Qed.

Lemma X8_two_shares_complement_witness :
  exists share0,
    generatePatterns rnd_demo (Some 0%Q) 2 0 = Ok ([share0; complement share0], 0 + 4).
Proof.
  apply (X8_two_shares_complement rnd_demo (Some 0%Q) 0);
    [apply rnd_demo_unit | reflexivity].
Defined.

Lemma cover_count_app (l1 l2 : list pattern) slot :
  cover_count (l1 ++ l2) slot = cover_count l1 slot + cover_count l2 slot.
Proof. unfold cover_count. by rewrite filter_app, length_app. Qed.

Lemma cover_count_clear m slot :
  cover_count (replicate m clear_block) slot = 0.
Proof.
  induction m as [|m IH]; [done|].
  change (replicate (S m) clear_block) with ([clear_block] ++ replicate m clear_block).
  rewrite cover_count_app, IH.
  destruct slot as [|[|[|[|slot]]]]; reflexivity.
Qed.

Lemma cover_count_ring (p : list nat) slot :
  p ∈ orderings -> slot < 4 ->
  cover_count [ink_set (p !!! 0) (p !!! 1); ink_set (p !!! 1) (p !!! 2);
               ink_set (p !!! 2) (p !!! 3); ink_set (p !!! 3) (p !!! 0)] slot = 2.
Proof.
  unfold orderings. intros H Hslot.
  destruct slot as [|[|[|[|slot]]]]; [| | | |lia];
    (repeat (apply elem_of_cons in H as [-> | H]);
     [reflexivity .. | by apply elem_of_nil in H]).
Qed.

(** X9: from four shares on, a dark channel puts ink on every slot in
    exactly two shares: the cyclic pairs {p0,p1}, {p1,p2}, {p2,p3},
    {p3,p0} cover each slot twice and the shares past the fourth add
    nothing. *)
Theorem X9_ring_covers_twice rnd (val : jsnum) (n k slot : nat) :
  unit_draws rnd -> 4 <= n -> classified_dark rnd val k = true -> slot < 4 ->
  exists pats,
    generatePatterns rnd val n k = Ok (pats, k + 4)
    /\ cover_count pats slot = 2.
Proof.
  intros Hrnd Hn Hdark Hslot.
  destruct (dark_patterns rnd val n k Hrnd ltac:(lia) Hdark)
    as (a & b & c & d & Hp & Hord & E).
  destruct n as [|[|[|[|n]]]]; [lia | lia | lia | lia |].
  rewrite E. eexists. split; [reflexivity|].
  rewrite cover_count_app, cover_count_clear, Nat.add_0_r.
  exact (cover_count_ring [a; b; c; d] slot Hord Hslot).
Qed.

Lemma X9_ring_covers_twice_witness :
  exists pats,
    generatePatterns rnd_demo (Some 0%Q) 5 0 = Ok (pats, 0 + 4)
    /\ cover_count pats 2 = 2.
Proof.
  apply (X9_ring_covers_twice rnd_demo (Some 0%Q) 5 0 2);
    [apply rnd_demo_unit | lia | reflexivity | lia].
Defined.

Lemma stacked_app (l1 l2 : list pattern) :
  stacked (l1 ++ l2) = stacked l1 ∪ stacked l2.
Proof. unfold stacked. by rewrite fmap_app, union_list_app_L. Qed.

Lemma stacked_clear m : stacked (replicate m clear_block) = ∅.
Proof.
  induction m as [|m IH]; [done|].
  change (replicate (S m) clear_block) with ([clear_block] ++ replicate m clear_block).
  rewrite stacked_app, IH. unfold stacked. simpl.
  change (ink_positions clear_block) with (∅ : gset nat).
  by rewrite !union_empty_r_L.
Qed.

Lemma stacked_replicate m (pat : pattern) :
  0 < m -> stacked (replicate m pat) = ink_positions pat.
Proof.
  intros Hm. destruct m as [|m]; [lia|]. clear Hm.
  induction m as [|m IH].
  - unfold stacked. simpl. by rewrite union_empty_r_L.
  - change (replicate (S (S m)) pat) with ([pat] ++ replicate (S m) pat).
    rewrite stacked_app, IH. unfold stacked. simpl.
    rewrite union_empty_r_L. by rewrite union_idemp_L.
Qed.

(** X10: dark coverage does not stop at four shares: for every count from
    two on (the fallback for more than four included) the shares of a dark
    channel together put ink on all four slots. *)
Theorem X10_dark_coverage_any_count rnd (val : jsnum) (n k : nat) :
  unit_draws rnd -> 2 <= n -> classified_dark rnd val k = true ->
  exists pats,
    generatePatterns rnd val n k = Ok (pats, k + 4)
    /\ stacked pats = {[0; 1; 2; 3]}.
Proof.
  intros Hrnd Hn Hdark.
  destruct (dark_patterns rnd val n k Hrnd Hn Hdark)
    as (a & b & c & d & Hp & Hord & E).
  destruct (orderings_spec _ Hord) as (a' & b' & c' & d' & [= <- <- <- <-] & Hlt & _).
  pose proof (orderings_Permutation _ Hord) as Hperm.
  rewrite E. eexists. split; [reflexivity|].
  assert (Hcover : forall s : gset nat,
            (forall x, x ∈ s <-> x ∈ [a; b; c; d]) -> s = {[0; 1; 2; 3]}).
  { intros s Hs. apply set_eq. intros x.
    rewrite Hs, Hperm, elem_of_four, !elem_of_union, !elem_of_singleton.
    split; intros H; decompose_or H; auto 6. }
  destruct n as [|[|[|[|n]]]]; [lia | lia | | |].
  - unfold stacked. simpl. rewrite !ink_positions_ink_set by lia.
    apply Hcover. intros x.
    rewrite elem_of_four, !elem_of_union, !elem_of_singleton, elem_of_empty.
    split; intros H; decompose_or H; auto 6.
  - unfold stacked. simpl. rewrite !ink_positions_ink_set by lia.
    apply Hcover. intros x.
    rewrite elem_of_four, !elem_of_union, !elem_of_singleton, elem_of_empty.
    split; intros H; decompose_or H; auto 6.
  - rewrite stacked_app, stacked_clear, union_empty_r_L.
    unfold stacked. simpl. rewrite !ink_positions_ink_set by lia.
    apply Hcover. intros x.
    rewrite elem_of_four, !elem_of_union, !elem_of_singleton, elem_of_empty.
    split; intros H; decompose_or H; auto 6.
Qed.

Lemma X10_dark_coverage_any_count_witness :
  exists pats,
    generatePatterns rnd_demo (Some 0%Q) 6 0 = Ok (pats, 0 + 4)
    /\ stacked pats = {[0; 1; 2; 3]}.
Proof.
  apply (X10_dark_coverage_any_count rnd_demo (Some 0%Q) 6 0);
    [apply rnd_demo_unit | lia | reflexivity].
Defined.

(** X11: stacking the shares of a light channel shows exactly two inked
    slots, p[0] and p[1], however many shares there are (at least one). *)
Theorem X11_light_stack_half rnd (val : jsnum) (n k : nat) :
  unit_draws rnd -> 0 < n -> classified_dark rnd val k = false ->
  let p := permutation_at rnd k in
  exists pats,
    generatePatterns rnd val n k = Ok (pats, k + 4)
    /\ stacked pats = {[p !!! 0; p !!! 1]}
    /\ size (stacked pats) = 2.
Proof.
  intros Hrnd Hn Hlight p. subst p.
  destruct (permutation_at_slots rnd k Hrnd) as (a & b & c & d & Hp & Hlt & Hne).
  rewrite generatePatterns_run, Hlight, assign_ink_light, Hp. simpl.
  rewrite ink_pair_pattern by lia.
  eexists. split; [reflexivity|].
  rewrite stacked_replicate by done. rewrite ink_positions_ink_set by lia.
  split; [done|].
  rewrite size_union by (apply disjoint_singleton_l; rewrite elem_of_singleton; lia).
  by rewrite !size_singleton.
Qed.

Lemma X11_light_stack_half_witness :
  let p := permutation_at rnd_demo 0 in
  exists pats,
    generatePatterns rnd_demo (Some 200%Q) 3 0 = Ok (pats, 0 + 4)
    /\ stacked pats = {[p !!! 0; p !!! 1]}
    /\ size (stacked pats) = 2.
Proof.
  apply (X11_light_stack_half rnd_demo (Some 200%Q) 3 0);
    [apply rnd_demo_unit | lia | reflexivity].
Defined.

(** ** Further properties of the block writer and of the encoder *)

(** X12: the block writer touches nothing but its block: the buffer keeps
    its length, and every byte outside the four RGBA pixels of the block of
    [(x, y)] is left as it was. *)
Theorem X12_writeBlock2x2_frame (data : list Z) (x y W : nat)
    (pR pG pB : pattern) (transparent : bool) (j : nat) :
  (forall dx dy, dx < 2 -> dy < 2 ->
     j < targetIdx_of x y W dx dy \/ targetIdx_of x y W dx dy + 4 <= j) ->
  writeBlock2x2 data x y W pR pG pB transparent !! j = data !! j
  /\ length (writeBlock2x2 data x y W pR pG pB transparent) = length data.
Proof.
  intros Hout. split; [|apply writeBlock2x2_length].
  pose proof (Hout 0 0 ltac:(lia) ltac:(lia)) as H00.
  pose proof (Hout 1 0 ltac:(lia) ltac:(lia)) as H10.
  pose proof (Hout 0 1 ltac:(lia) ltac:(lia)) as H01.
  pose proof (Hout 1 1 ltac:(lia) ltac:(lia)) as H11.
  unfold writeBlock2x2. simpl foldl.
  destruct transparent; unfold write_px;
    by rewrite !list_lookup_insert_ne by lia.
Qed.

Lemma X12_writeBlock2x2_frame_witness :
  writeBlock2x2 (replicate 64 7%Z) 1 0 4 [0; 1; 0; 1]%Z [1; 1; 0; 0]%Z
    [0; 0; 1; 1]%Z false !! 4 = replicate 64 7%Z !! 4
  /\ length (writeBlock2x2 (replicate 64 7%Z) 1 0 4 [0; 1; 0; 1]%Z [1; 1; 0; 0]%Z
               [0; 0; 1; 1]%Z false) = length (replicate 64 7%Z).
Proof.
  apply (X12_writeBlock2x2_frame (replicate 64 7%Z) 1 0 4).
  intros dx dy Hdx Hdy. unfold targetIdx_of. lia.
Defined.

(** X13: from two shares on the encoder never throws, and it makes exactly
    twelve draws for every source pixel (four for each colour channel),
    whatever the pixel values and the colour mode. *)
Theorem X13_encoder_draws rnd (sourceData : ImageData) (shareCount : nat)
    (isColor : bool) (k : nat) :
  2 <= shareCount ->
  exists shares,
    generateVisualShares rnd sourceData shareCount isColor k
    = Ok (shares, k + 12 * (width sourceData * height sourceData))
    /\ length shares = shareCount.
Proof.
  intros Hn.
  destruct (generateVisualShares_rule rnd sourceData shareCount isColor Hn
    (fun _ _ _ => True) k) as (shares & E & Hlen & _); [done..|].
  exists shares. split; [|done].
  rewrite E. do 2 f_equal. lia.
Qed.

Lemma X13_encoder_draws_witness :
  exists shares,
    generateVisualShares rnd_demo img_demo 2 false 5
    = Ok (shares, 5 + 12 * (width img_demo * height img_demo))
    /\ length shares = 2.
Proof. apply (X13_encoder_draws rnd_demo img_demo 2 false 5). lia. Defined.

Lemma alpha_from_50 (a : Z) :
  (50 <= a)%Z -> js_lt (byte_num (Some a)) 50 = false.
Proof.
  intros Ha. simpl.
  destruct (Qltb (inject_Z a) 50) eqn:E; [|done].
  apply Qltb_true in E. change 50%Q with (inject_Z 50) in E.
  rewrite <- Zlt_Qlt in E. lia.
Qed.

(** X14: an opaque source pixel gives opaque blocks: if the alpha of the
    source pixel [(x, y)] is 50 or more then, in every returned share, each
    of the four pixels of its block has alpha 255. *)
Theorem X14_opaque_blocks rnd (sourceData : ImageData)
    (shareCount : nat) (isColor : bool) (k x y : nat) (a : Z) :
  2 <= shareCount ->
  x < width sourceData -> y < height sourceData ->
  data sourceData !! ((y * width sourceData + x) * 4 + 3) = Some a ->
  (50 <= a)%Z ->
  exists shares k',
    generateVisualShares rnd sourceData shareCount isColor k = Ok (shares, k')
    /\ length shares = shareCount
    /\ Forall (fun img =>
                 forall dx dy, dx < 2 -> dy < 2 ->
                   exists r g b,
                     pixel_at (data img)
                       (out_pixel (width img) (x * 2 + dx) (y * 2 + dy))
                     = Some (r, g, b, 255%Z)) shares.
Proof.
  intros Hn Hx Hy Ha Ha50.
  assert (Htr : pixel_transparent sourceData x y = false).
  { unfold pixel_transparent. rewrite Ha. by apply alpha_from_50. }
  destruct (generateVisualShares_rule rnd sourceData shareCount isColor Hn
    (fun y' x' d =>
       length d = width sourceData * 2 * (height sourceData * 2) * 4
       /\ (y < y' \/ (y' = y /\ x < x') ->
           forall dx dy, dx < 2 -> dy < 2 ->
             exists r g b,
               pixel_at d (out_pixel (width sourceData * 2) (x * 2 + dx) (y * 2 + dy))
               = Some (r, g, b, 255%Z))) k)
    as (shares & E & Hlen & Hall).
  - intros x' y' d pR pG pB Hx' Hy' _ _ _ [Hd Hblock].
    split; [by rewrite writeBlock2x2_length|].
    intros Hpast dx dy Hdx Hdy.
    rewrite pixel_at_writeBlock2x2 by (rewrite Hd; by apply block_in_range).
    destruct (decide (x' = x /\ y' = y)) as [[-> ->] | Hother].
    + rewrite Htr. unfold block_pixel.
      repeat case_decide; try by eexists _, _, _.
      exfalso.
      assert (dx = 0 \/ dx = 1) as [-> | ->] by lia;
        (assert (dy = 0 \/ dy = 1) as [-> | ->] by lia); congruence.
    + assert (Hne : forall ex ey, ex < 2 -> ey < 2 ->
                out_pixel (width sourceData * 2) (x * 2 + dx) (y * 2 + dy)
                <> out_pixel (width sourceData * 2) (x' * 2 + ex) (y' * 2 + ey)).
      { intros ex ey Hex Hey Heq.
        apply out_pixel_inj in Heq; lia. }
      rewrite decide_False by (apply Hne; lia).
      rewrite decide_False by (apply Hne; lia).
      rewrite decide_False by (apply Hne; lia).
      rewrite decide_False by (apply Hne; lia).
      apply Hblock; [lia|done|done].
  - intros y' d [Hd Hblock]. split; [done|].
    intros Hpast. apply Hblock. lia.
  - split; [apply length_replicate|]. intros Hpast. lia.
  - exists shares, (k + height sourceData * (width sourceData * 12)).
    split; [done|]. split; [done|].
    eapply Forall_impl; [exact Hall|].
    intros img (Hw & Hh & Hd & Hblock) dx dy Hdx Hdy.
    rewrite Hw. apply Hblock; [lia|done|done].
Qed.

Lemma X14_opaque_blocks_witness :
  exists shares k',
    generateVisualShares rnd_demo img_demo 5 true 0 = Ok (shares, k')
    /\ length shares = 5
    /\ Forall (fun img =>
                 forall dx dy, dx < 2 -> dy < 2 ->
                   exists r g b,
                     pixel_at (data img)
                       (out_pixel (width img) (0 * 2 + dx) (0 * 2 + dy))
                     = Some (r, g, b, 255%Z)) shares.
Proof.
  apply (X14_opaque_blocks rnd_demo img_demo 5 true 0 0 0 255);
    [lia | simpl; lia | simpl; lia | reflexivity | lia].
Defined.

(** X15: with fewer than two shares the encoder fails on the first dark
    channel it meets: if the image is not empty and the first channel of
    its first pixel (red in colour mode, the luminance otherwise) is
    classified dark, the call throws a [TypeError] and returns no share. *)
Theorem X15_encoder_too_few_shares rnd (sourceData : ImageData)
    (shareCount : nat) (isColor : bool) (k : nat) :
  shareCount < 2 ->
  0 < width sourceData -> 0 < height sourceData ->
  let r := byte_num (data sourceData !! 0) in
  let g := byte_num (data sourceData !! 1) in
  let b := byte_num (data sourceData !! 2) in
  classified_dark rnd (if isColor then r else luminance r g b) k = true ->
  generateVisualShares rnd sourceData shareCount isColor k = Throw TypeError.
Proof.
  intros Hn Hw Hh r g b Hdark.
  unfold generateVisualShares.
  destruct (width sourceData) as [|w] eqn:Ew; [lia|].
  destruct (height sourceData) as [|h] eqn:Eh; [lia|].
  apply bind_Throw. simpl seq. simpl for_each.
  apply bind_Throw. apply bind_Throw.
  unfold process_pixel. apply bind_Throw.
  apply generatePatterns_lt2_dark; [done|].
  rewrite <- Hdark. subst r g b. by destruct isColor.
Qed.

Lemma X15_encoder_too_few_shares_witness :
  generateVisualShares rnd_demo img_demo 1 true 0 = Throw TypeError.
Proof.
  apply (X15_encoder_too_few_shares rnd_demo img_demo 1 true 0);
    [lia | simpl; lia | simpl; lia | reflexivity].
Defined.

(** The rules of the pixel loops once more, for a pattern generator known
    to deliver patterns with a property [Pat] of one's choice. *)
Section EncoderFactsPat.
Variable rnd : nat -> Q.
Variable sourceData : ImageData.
Variable shareCount : nat.
Variable isColor : bool.
Variable Pat : pattern -> Prop.
Hypothesis generator_ok : forall (val : jsnum) k,
  exists pats,
    generatePatterns rnd val shareCount k = Ok (pats, k + 4)
    /\ length pats = shareCount /\ Forall Pat pats.

Local Abbreviation outWidth := (width sourceData * 2).

Lemma process_pixel_rule_pat (Q0 Q1 : list Z -> Prop) x y sharesData k :
  (forall d pR pG pB, Pat pR -> Pat pG -> Pat pB -> Q0 d ->
     Q1 (writeBlock2x2 d x y outWidth pR pG pB (pixel_transparent sourceData x y))) ->
  length sharesData = shareCount ->
  Forall Q0 sharesData ->
  exists sharesData',
    process_pixel rnd sourceData shareCount isColor outWidth y sharesData x k
    = Ok (sharesData', k + 12)
    /\ length sharesData' = shareCount
    /\ Forall Q1 sharesData'.
Proof.
  intros Hblock Hlen HQ0. unfold process_pixel.
  set (chan := if isColor then _ else _).
  destruct (generator_ok chan.1.1 k) as (patR & ER & HlenR & HbR).
  destruct (generator_ok chan.1.2 (k + 4)) as (patG & EG & HlenG & HbG).
  destruct (generator_ok chan.2 (k + 4 + 4)) as (patB & EB & HlenB & HbB).
  rewrite (bind_Ok _ _ _ _ _ ER), (bind_Ok _ _ _ _ _ EG), (bind_Ok _ _ _ _ _ EB).
  destruct (for_each_seq_invariant
    (fun j (acc : list (list Z)) =>
       length acc = shareCount
       /\ forall s d, acc !! s = Some d -> (s < j -> Q1 d) /\ (j <= s -> Q0 d))
    (write_share x y outWidth patR patG patB (pixel_transparent sourceData x y))
    0 shareCount 0 sharesData (k + 4 + 4 + 4)) as (acc & E & Hacc & HQ).
  - intros j acc k' Hj [Hacc HQ].
    destruct (lookup_lt_is_Some_2 acc j ltac:(lia)) as [d Hd].
    destruct (lookup_lt_is_Some_2 patR j ltac:(lia)) as [pR HpR].
    destruct (lookup_lt_is_Some_2 patG j ltac:(lia)) as [pG HpG].
    destruct (lookup_lt_is_Some_2 patB j ltac:(lia)) as [pB HpB].
    unfold write_share. rewrite Hd, HpR, HpG, HpB.
    eexists. split; [unfold mret, M_ret, ret; by rewrite Nat.add_0_r|].
    split; [by rewrite length_insert|].
    intros s d'. rewrite list_lookup_insert. case_decide as Hs.
    + destruct Hs as [<- _]. intros [= <-]. split; [|lia]. intros _.
      apply Hblock.
      * exact (Forall_lookup_1 _ _ _ _ HbR HpR).
      * exact (Forall_lookup_1 _ _ _ _ HbG HpG).
      * exact (Forall_lookup_1 _ _ _ _ HbB HpB).
      * apply (HQ j d Hd). lia.
    + intros Hd'. destruct (HQ s d' Hd') as [H1 H0].
      split; intros Hsj; [apply H1 | apply H0]; lia.
  - split; [done|]. intros s d Hd. split; [lia|]. intros _.
    exact (Forall_lookup_1 _ _ _ _ HQ0 Hd).
  - exists acc. split; [|split; [done|]].
    + etrans; [exact E|]. do 2 f_equal. lia.
    + apply Forall_lookup_2. intros s d Hd.
      apply (HQ s d Hd). apply lookup_lt_Some in Hd. simpl. lia.
Qed.

Lemma generateVisualShares_rule_pat (R : nat -> nat -> list Z -> Prop) k :
  (forall x y d pR pG pB,
     x < width sourceData -> y < height sourceData ->
     Pat pR -> Pat pG -> Pat pB ->
     R y x d ->
     R y (S x) (writeBlock2x2 d x y outWidth pR pG pB (pixel_transparent sourceData x y))) ->
  (forall y d, R y (width sourceData) d -> R (S y) 0 d) ->
  R 0 0 (replicate (outWidth * (height sourceData * 2) * 4) 0%Z) ->
  exists shares,
    generateVisualShares rnd sourceData shareCount isColor k
    = Ok (shares, k + height sourceData * (width sourceData * 12))
    /\ length shares = shareCount
    /\ Forall (fun img =>
                 width img = width sourceData * 2
                 /\ height img = height sourceData * 2
                 /\ R (height sourceData) 0 (data img)) shares.
Proof.
  intros Hpixel Hrow Hinit. unfold generateVisualShares.
  destruct (for_each_seq_invariant
    (fun y (acc : list (list Z)) => length acc = shareCount /\ Forall (R y 0) acc)
    (fun sharesData y =>
       for_each (process_pixel rnd sourceData shareCount isColor outWidth y)
                (seq 0 (width sourceData)) sharesData)
    (width sourceData * 12) (height sourceData) 0
    (replicate shareCount (replicate (outWidth * (height sourceData * 2) * 4) 0%Z)) k)
    as (acc & E & Hacc & HR).
  - intros y acc k' Hy [Hacc HRy].
    destruct (for_each_seq_invariant
      (fun x (acc : list (list Z)) => length acc = shareCount /\ Forall (R y x) acc)
      (process_pixel rnd sourceData shareCount isColor outWidth y)
      12 (width sourceData) 0 acc k')
      as (acc' & E' & Hacc' & HR'); [|done|].
    + intros x acc1 k1 Hx [Hacc1 HR1].
      destruct (process_pixel_rule_pat (R y x) (R y (S x)) x y acc1 k1)
        as (acc2 & E2 & Hacc2 & HR2); [|done|done|by exists acc2].
      intros d pR pG pB HbR HbG HbB Hd. apply Hpixel; [lia|lia|done..].
    + exists acc'. split; [done|]. split; [done|].
      eapply Forall_impl; [exact HR'|]. intros d Hd. by apply Hrow.
  - split; [apply length_replicate | by apply Forall_replicate].
  - eexists. split; [by rewrite (bind_Ok _ _ _ _ _ E)|].
    split; [by rewrite length_fmap|].
    apply Forall_fmap. eapply Forall_impl; [exact HR|]. by intros d Hd.
Qed.

End EncoderFactsPat.

Lemma generatePatterns_balanced rnd (val : jsnum) (n k : nat) :
  unit_draws rnd -> 2 <= n <= 4 ->
  exists pats,
    generatePatterns rnd val n k = Ok (pats, k + 4)
    /\ length pats = n
    /\ Forall (fun pat => bits4 pat /\ ink_count pat = 2) pats.
Proof.
  intros Hrnd Hn.
  assert (Hset : forall x y, x < 4 -> y < 4 -> x <> y ->
            bits4 (ink_set x y) /\ ink_count (ink_set x y) = 2).
  { intros x y Hx Hy Hxy. split; [apply ink_set_bits4 | by apply ink_set_count]. }
  destruct (classified_dark rnd val k) eqn:Hdark.
  - destruct (dark_patterns rnd val n k Hrnd ltac:(lia) Hdark)
      as (a & b & c & d & Hp & Hord & E).
    destruct (orderings_spec _ Hord) as (a' & b' & c' & d' & [= <- <- <- <-] & Hlt & Hne).
    rewrite E. eexists. split; [reflexivity|].
    destruct n as [|[|[|[|[|n]]]]]; try lia;
      (split; [done|]);
      repeat (apply Forall_cons; split; [apply Hset; lia|]); apply Forall_nil_2.
  - destruct (permutation_at_slots rnd k Hrnd) as (a & b & c & d & Hp & Hlt & Hne).
    rewrite generatePatterns_run, Hdark, assign_ink_light, Hp. simpl.
    rewrite ink_pair_pattern by lia.
    eexists. split; [reflexivity|]. split; [apply length_replicate|].
    apply Forall_replicate, Hset; lia.
Qed.

Lemma ink_value_colour (pat : pattern) i :
  bits4 pat -> i < 4 -> ink_value pat i = ink_colour (pat !!! i).
Proof.
  intros [Hlen Hbits] Hi. unfold ink_value, ink_colour.
  destruct (lookup_lt_is_Some_2 pat i ltac:(lia)) as [bit Hbit].
  rewrite (list_lookup_total_correct _ _ _ Hbit), Hbit. simpl.
  destruct (Forall_lookup_1 _ _ _ _ Hbits Hbit) as [-> | ->]; reflexivity.
Qed.

(** X16: every block of an opaque source pixel shows, in every share and in
    each colour channel, a pattern with exactly two ink bits: there are
    three 4-bit patterns with two ink bits each such that slot [i] of the
    block holds the colours [(1 - bit) x 255] of their bits [i], with alpha
    255.  (Share counts 2 to 4.) *)
Theorem X16_balanced_blocks rnd (sourceData : ImageData)
    (shareCount : nat) (isColor : bool) (k x y : nat) (a : Z) :
  unit_draws rnd ->
  2 <= shareCount <= 4 ->
  x < width sourceData -> y < height sourceData ->
  data sourceData !! ((y * width sourceData + x) * 4 + 3) = Some a ->
  (50 <= a)%Z ->
  exists shares k',
    generateVisualShares rnd sourceData shareCount isColor k = Ok (shares, k')
    /\ length shares = shareCount
    /\ Forall (fun img =>
         exists pR pG pB,
           (bits4 pR /\ ink_count pR = 2)
           /\ (bits4 pG /\ ink_count pG = 2)
           /\ (bits4 pB /\ ink_count pB = 2)
           /\ forall dx dy i, (dx, dy, i) ∈ offsets ->
                pixel_at (data img)
                  (out_pixel (width img) (x * 2 + dx) (y * 2 + dy))
                = Some (ink_colour (pR !!! i), ink_colour (pG !!! i),
                        ink_colour (pB !!! i), 255%Z)) shares.
Proof.
  intros Hrnd Hn Hx Hy Ha Ha50.
  assert (Htr : pixel_transparent sourceData x y = false).
  { unfold pixel_transparent. rewrite Ha. by apply alpha_from_50. }
  set (W := width sourceData * 2).
  set (Pat := fun pat : pattern => bits4 pat /\ ink_count pat = 2).
  destruct (generateVisualShares_rule_pat rnd sourceData shareCount isColor Pat
    (fun val k => generatePatterns_balanced rnd val shareCount k Hrnd Hn)
    (fun y' x' d =>
       length d = W * (height sourceData * 2) * 4
       /\ (y < y' \/ (y' = y /\ x < x') ->
           exists pR pG pB, Pat pR /\ Pat pG /\ Pat pB
             /\ forall dx dy i, (dx, dy, i) ∈ offsets ->
                  pixel_at d (out_pixel W (x * 2 + dx) (y * 2 + dy))
                  = Some (ink_colour (pR !!! i), ink_colour (pG !!! i),
                          ink_colour (pB !!! i), 255%Z))) k)
    as (shares & E & Hlen & Hall).
  - intros x' y' d pR pG pB Hx' Hy' HR HG HB [Hd Hblock].
    split; [by rewrite writeBlock2x2_length|].
    intros Hpast.
    assert (Hne : forall u v ex ey ex' ey', u < width sourceData ->
              v < width sourceData ->
              ex < 2 -> ey < 2 -> ex' < 2 -> ey' < 2 ->
              (u, ex, ey) <> (v, ex', ey') \/ y' <> y ->
              out_pixel W (u * 2 + ex) (y * 2 + ey)
              <> out_pixel W (v * 2 + ex') (y' * 2 + ey')).
    { intros u v ex ey ex' ey' ? ? ? ? ? ? Hdiff Heq.
      apply out_pixel_inj in Heq as [? ?]; unfold W; [|lia..].
      destruct Hdiff as [Hdiff | Hdiff]; [|lia].
      apply Hdiff. repeat f_equal; lia. }
    destruct (decide (x' = x /\ y' = y)) as [[-> ->] | Hother].
    + exists pR, pG, pB. split; [done|]. split; [done|]. split; [done|].
      intros dx dy i Hoff.
      rewrite pixel_at_writeBlock2x2 by (rewrite Hd; by apply block_in_range).
      rewrite Htr.
      assert (Hval : block_pixel pR pG pB false i
                = (ink_colour (pR !!! i), ink_colour (pG !!! i),
                   ink_colour (pB !!! i), 255%Z)).
      { assert (i < 4).
        { unfold offsets in Hoff.
          repeat (apply elem_of_cons in Hoff as [[= _ _ ->] | Hoff]); try lia.
          by apply elem_of_nil in Hoff. }
        unfold block_pixel.
        by rewrite !ink_value_colour by (done || apply HR || apply HG || apply HB). }
      unfold offsets in Hoff.
      repeat (apply elem_of_cons in Hoff as [[= -> -> ->] | Hoff]);
        [| | | |by apply elem_of_nil in Hoff];
        rewrite <- Hval;
        repeat (rewrite decide_False
                  by (apply Hne; try lia; left; congruence));
        by rewrite decide_True by done.
    + destruct Hblock as (qR & qG & qB & HqR & HqG & HqB & Hq); [lia|].
      exists qR, qG, qB. split; [done|]. split; [done|]. split; [done|].
      intros dx dy i Hoff.
      rewrite pixel_at_writeBlock2x2 by (rewrite Hd; by apply block_in_range).
      assert (dx < 2 /\ dy < 2) as [Hdx Hdy].
      { unfold offsets in Hoff.
        repeat (apply elem_of_cons in Hoff as [[= -> -> _] | Hoff]); try lia.
        by apply elem_of_nil in Hoff. }
      assert (Hfar : forall ex ey, ex < 2 -> ey < 2 ->
                out_pixel W (x * 2 + dx) (y * 2 + dy)
                <> out_pixel W (x' * 2 + ex) (y' * 2 + ey)).
      { intros ex ey Hex Hey Heq.
        apply out_pixel_inj in Heq; unfold W; lia. }
      rewrite decide_False by (apply Hfar; lia).
      rewrite decide_False by (apply Hfar; lia).
      rewrite decide_False by (apply Hfar; lia).
      rewrite decide_False by (apply Hfar; lia).
      by apply Hq.
  - intros y' d [Hd Hblock]. split; [done|].
    intros Hpast. apply Hblock. lia.
  - split; [apply length_replicate|]. intros Hpast. lia.
  - exists shares, (k + height sourceData * (width sourceData * 12)).
    split; [done|]. split; [done|].
    eapply Forall_impl; [exact Hall|].
    intros img (Hw & Hh & Hd & Hblock).
    destruct Hblock as (pR & pG & pB & HR & HG & HB & Hq); [lia|].
    exists pR, pG, pB. split; [done|]. split; [done|]. split; [done|].
    intros dx dy i Hoff. rewrite Hw. by apply Hq.
Qed.

Lemma X16_balanced_blocks_witness :
  exists shares k',
    generateVisualShares rnd_demo img_demo 2 true 0 = Ok (shares, k')
    /\ length shares = 2
    /\ Forall (fun img =>
         exists pR pG pB,
           (bits4 pR /\ ink_count pR = 2)
           /\ (bits4 pG /\ ink_count pG = 2)
           /\ (bits4 pB /\ ink_count pB = 2)
           /\ forall dx dy i, (dx, dy, i) ∈ offsets ->
                pixel_at (data img)
                  (out_pixel (width img) (0 * 2 + dx) (0 * 2 + dy))
                = Some (ink_colour (pR !!! i), ink_colour (pG !!! i),
                        ink_colour (pB !!! i), 255%Z)) shares.
Proof.
  apply (X16_balanced_blocks rnd_demo img_demo 2 true 0 0 0 255);
    [apply rnd_demo_unit | lia | simpl; lia | simpl; lia | reflexivity | lia].
Defined.

(** ** Properties of the application *)

Lemma mapShares_ids (rawShares : list ImageData) :
  share_id <$> mapShares rawShares = seq 0 (length rawShares).
Proof.
  apply list_eq. intros i. unfold mapShares.
  rewrite list_lookup_fmap, list_lookup_imap.
  destruct (rawShares !! i) as [img|] eqn:E; simpl.
  - apply lookup_lt_Some in E. by rewrite lookup_seq_lt.
  - apply lookup_ge_None in E. by rewrite lookup_seq_ge.
Qed.

Lemma mapShares_data (rawShares : list ImageData) :
  share_data <$> mapShares rawShares = rawShares.
Proof.
  apply list_eq. intros i. unfold mapShares.
  rewrite list_lookup_fmap, list_lookup_imap.
  by destruct (rawShares !! i).
Qed.

(** X17: the border colours tell the shares apart exactly up to four
    shares: the colours given to the shares are pairwise different if and
    only if there are at most four shares (from the fifth on the palette
    repeats). *)
Theorem X17_colours_distinct (rawShares : list ImageData) :
  NoDup (share_color <$> mapShares rawShares) <-> length rawShares <= 4.
Proof.
  split.
  - intros Hnd.
    destruct rawShares as [|a [|b [|c [|d [|e rest]]]]]; simpl; try lia.
    exfalso. unfold mapShares in Hnd. simpl in Hnd.
    apply NoDup_cons in Hnd as [Hnotin _]. apply Hnotin.
    do 3 apply list_elem_of_further. apply list_elem_of_here.
  - intros Hlen.
    destruct rawShares as [|a [|b [|c [|d [|e rest]]]]]; simpl in Hlen; try lia;
      apply (bool_decide_unpack _); vm_compute; exact I.
Qed.

(** X18: with the share counts the slider can deliver, the encoder is
    never the reason for an error.  When the canvas steps deliver the
    pixels the handler ends in status [COMPLETE]: the state then holds
    [shareCount] shares numbered 0, 1, ... in order, each of twice the
    dimensions of the image read from the canvas, and the alignment trigger
    is back to 0.  When a canvas step throws, the status becomes [ERROR] and
    the shares and the trigger of the state are left as they were. *)
Theorem X18_processing_outcome rnd (st : AppState) (canvas : option ImageData)
    (shareCount : SliderValue) (isColor : bool) (k : nat) :
  let st' := processImage_onload rnd st canvas shareCount isColor k in
  match canvas with
  | Some imageData =>
      status st' = COMPLETE
      /\ alignTrigger st' = 0
      /\ share_id <$> generatedShares st' = seq 0 (slider_count shareCount)
      /\ Forall (fun sh =>
                   width (share_data sh) = 2 * width imageData
                   /\ height (share_data sh) = 2 * height imageData)
                (generatedShares st')
  | None =>
      st' = mkAppState ERROR (generatedShares st) (alignTrigger st)
  end.
Proof.
  intros st'. subst st'. unfold processImage_onload.
  destruct canvas as [imageData|]; [|done].
  assert (Hn : 2 <= slider_count shareCount) by (destruct shareCount; simpl; lia).
  destruct (generateVisualShares_dimensions rnd imageData
              (slider_count shareCount) isColor k Hn)
    as (shares & k' & E & Hlen & Hdims).
  rewrite E. cbn [status alignTrigger generatedShares].
  split; [done|]. split; [done|]. split.
  - by rewrite mapShares_ids, Hlen.
  - rewrite <- (mapShares_data shares) in Hdims. apply Forall_fmap in Hdims.
    eapply Forall_impl; [exact Hdims|]. by intros sh (Hw & Hh & _).
Qed.
